(** * APP.PY: real-time audio waveform visualisation and WAV recording

    A shallow embedding of [src/APP.PY].  The program talks to three
    libraries (PyAudio, [wave], matplotlib) and to the user; everything
    those return is supplied by an explicit environment, and the program
    itself is a computation in a small state-and-exception monad over the
    objects it creates. *)

From Stdlib.Strings Require Import String Byte.
From Stdlib Require Import ZArith List Bool Lia.
Import ListNotations.
Open Scope Z_scope.

(** ** Bytes and frames *)

(** [stream.read] returns a Python [bytes] object. *)
Definition frame := list byte.

(** The value of one byte as [struct.unpack] with code ['B'] gives it. *)
Definition byte_value (b : byte) : Z := Z.of_N (Byte.to_N b).

(** ** Sample transcoding (lines 112-113) *)

Module Transcoder.

(** [struct.unpack(str(count) + 'B', data)]: [count] unsigned bytes; the
    buffer must hold exactly [count] bytes, and a negative count is not a
    format.  [None] stands for [struct.error]. *)
Definition struct_unpack_B (count : Z) (data : frame) : option (list Z) :=
  if (0 <=? count) && (Z.of_nat (length data) =? count)
  then Some (map byte_value data)
  else None.

(** [np.array(..., dtype='b')]: every element is stored as a signed 8-bit
    integer, a value from 128 to 255 wrapping around to a negative one (the
    conversion of NumPy 1.x, for which lines 112-113 are written). *)
Definition int8 (v : Z) : Z := (v + 128) mod 256 - 128.

(** [arr + 128] on an int8 array: 128 does not fit int8, so NumPy 1.x
    computes the sum in int16. *)
Definition int16 (v : Z) : Z := (v + 32768) mod 65536 - 32768.

(** The slice [[::2]]: elements at even offsets. *)
Fixpoint stride2 {A : Type} (l : list A) : list A :=
  match l with
  | [] => []
  | x :: rest =>
      x :: match rest with
           | [] => []
           | _ :: rest' => stride2 rest'
           end
  end.

(** Lines 112-113 as written: unpack all bytes, store them as int8, keep
    every second one, add 128. *)
Definition to_series (samples_per_frame : Z) (audio_data : frame)
  : option (list Z) :=
  match struct_unpack_B (2 * samples_per_frame) audio_data with
  | Some data_int =>
      Some (map (fun v => int16 (v + 128)) (stride2 (map int8 data_int)))
  | None => None
  end.

(** The transcoding as the specification words it: take every second byte
    from offset 0, read it as a signed 8-bit value, add the bias 128. *)
Definition signed8 (b : byte) : Z :=
  if byte_value b <? 128 then byte_value b else byte_value b - 256.

Definition BIAS : Z := 128.

Definition to_series_spec (audio_data : frame) : list Z :=
  map (fun b => signed8 b + BIAS) (stride2 audio_data).

End Transcoder.

(** ** Exceptions, results and the environment *)

(** The exception classes the program can meet. *)
Inductive exn : Type :=
| OSError            (* PyAudio and file errors ([IOError] is the same class) *)
| TclError           (* tkinter: the window of the figure is gone *)
| ValueError
| EOFError
| ZeroDivisionError
| struct_error
| wave_Error
| AttributeError.

Definition exn_eqb (a b : exn) : bool :=
  match a, b with
  | OSError, OSError | TclError, TclError | ValueError, ValueError
  | EOFError, EOFError | ZeroDivisionError, ZeroDivisionError
  | struct_error, struct_error | wave_Error, wave_Error
  | AttributeError, AttributeError => true
  | _, _ => false
  end.

(** What a call into a library does: it gives a value or raises. *)
Inductive outcome (A : Type) : Type :=
| Gives (a : A)
| Fails (e : exn).
Arguments Gives {A} a.
Arguments Fails {A} e.

(** What [wav_file.writeframes(audio_data)] meets at the file: every
    write, seek and tell succeeds, or one of them raises [e] when the first
    [kept] bytes of the frame have reached the file (none of them, all of
    them when the lengths in the header could not be updated, or a part). *)
Inductive write_outcome : Type :=
| Written
| WriteRaises (e : exn) (kept : nat).

(** One turn of the [while True] loop of [visualize_audio], as the outside
    world answers it. *)
Record cycle_env : Type := {
  read : outcome frame;      (* stream.read(samples_per_frame) *)
  write : write_outcome;     (* the file operations of wav_file.writeframes *)
  redraw : outcome unit;     (* fig.canvas.draw(); fig.canvas.flush_events() *)
  clock : Z                  (* time.time(), should this turn ask for it *)
}.

(** One call of [visualize_audio], as the outside world answers it.  The
    list of cycles is what has been observed of the device and the window;
    when it is used up the call is still inside [stream.read]. *)
Record run_env : Type := {
  stream_open : outcome unit;   (* audio.open(...) *)
  wave_open : outcome unit;     (* wave.open(output_file, 'wb') *)
  sample_size : outcome Z;      (* audio.get_sample_size(audio_format) *)
  clock_start : Z;              (* time.time() on line 102 *)
  cycles : list cycle_env;
  wav_close : outcome unit;     (* wav_file.close() *)
  stream_stop : outcome unit;   (* stream.stop_stream() *)
  stream_close : outcome unit   (* stream.close() *)
}.

(** ** The objects of a process *)

(** A figure or a PyAudio instance: not created, in use, released. *)
Inductive handle : Type := Absent | Open | Released.

Inductive stream_state : Type := NoStream | Active | Stopped | Closed.

(** A [wave.Wave_write] object: the three header fields, whether the
    header has been written, the bytes in the file after the header, and
    whether [close()] has finalized the file.  (On a little-endian host the
    [wave] module writes frames as they are.) *)
Record wave_write : Type := {
  nchannels : Z;
  sampwidth : Z;
  framerate : Z;
  headerwritten : bool;
  data : list byte;
  finalized : bool
}.

(** A canonical WAV header is 44 bytes long; a file whose header has not
    been written yet is empty. *)
Definition HEADER_SIZE : Z := 44.

Definition file_size (w : wave_write) : Z :=
  if headerwritten w then HEADER_SIZE + Z.of_nat (length (data w)) else 0.

(** What the program prints. *)
Inductive message : Type :=
| SayInvalidIndex    (* "Invalid index. Please choose a valid audio input device." *)
| SayInvalidInput    (* "Invalid input. Please enter a valid integer index." *)
| SayStarted         (* "Audio visualization and recording started" *)
| SayStopped         (* "Audio visualization and recording stopped" *)
| SayFrameRate (frames seconds : Z)      (* "Average frame rate = ... FPS", frames / seconds *)
| SayDevice (index : Z) (name : string)  (* "Audio Input Device Index i - name" *)
| SayPrompt.         (* "Select a valid audio input device by index: " *)

Record process : Type := {
  stdout : list message;
  fig : handle;                     (* fig, ax = plt.subplots(...) *)
  audio : handle;                   (* audio = pyaudio.PyAudio() *)
  stream : stream_state;
  wav_file : option wave_write;
  line_ydata : option (list Z);     (* None: the random curve of line 84 *)
  frame_count : Z;
  start_time : Z;
  captured : list frame
  (* every frame [stream.read] has returned, oldest first: a record for
     the statements below, the program keeps no such list *)
}.

Definition startup : process :=
  {| stdout := []; fig := Absent; audio := Absent; stream := NoStream;
     wav_file := None; line_ydata := None; frame_count := 0;
     start_time := 0; captured := [] |}.

Definition set_stdout (v : list message) (s : process) : process :=
  {| stdout := v; fig := fig s; audio := audio s; stream := stream s;
     wav_file := wav_file s; line_ydata := line_ydata s;
     frame_count := frame_count s; start_time := start_time s;
     captured := captured s |}.

Definition set_fig (v : handle) (s : process) : process :=
  {| stdout := stdout s; fig := v; audio := audio s; stream := stream s;
     wav_file := wav_file s; line_ydata := line_ydata s;
     frame_count := frame_count s; start_time := start_time s;
     captured := captured s |}.

Definition set_audio (v : handle) (s : process) : process :=
  {| stdout := stdout s; fig := fig s; audio := v; stream := stream s;
     wav_file := wav_file s; line_ydata := line_ydata s;
     frame_count := frame_count s; start_time := start_time s;
     captured := captured s |}.

Definition set_stream (v : stream_state) (s : process) : process :=
  {| stdout := stdout s; fig := fig s; audio := audio s; stream := v;
     wav_file := wav_file s; line_ydata := line_ydata s;
     frame_count := frame_count s; start_time := start_time s;
     captured := captured s |}.

Definition set_wav_file (v : option wave_write) (s : process) : process :=
  {| stdout := stdout s; fig := fig s; audio := audio s; stream := stream s;
     wav_file := v; line_ydata := line_ydata s;
     frame_count := frame_count s; start_time := start_time s;
     captured := captured s |}.

Definition set_line_ydata (v : option (list Z)) (s : process) : process :=
  {| stdout := stdout s; fig := fig s; audio := audio s; stream := stream s;
     wav_file := wav_file s; line_ydata := v;
     frame_count := frame_count s; start_time := start_time s;
     captured := captured s |}.

Definition set_frame_count (v : Z) (s : process) : process :=
  {| stdout := stdout s; fig := fig s; audio := audio s; stream := stream s;
     wav_file := wav_file s; line_ydata := line_ydata s;
     frame_count := v; start_time := start_time s;
     captured := captured s |}.

Definition set_start_time (v : Z) (s : process) : process :=
  {| stdout := stdout s; fig := fig s; audio := audio s; stream := stream s;
     wav_file := wav_file s; line_ydata := line_ydata s;
     frame_count := frame_count s; start_time := v;
     captured := captured s |}.

Definition set_captured (v : list frame) (s : process) : process :=
  {| stdout := stdout s; fig := fig s; audio := audio s; stream := stream s;
     wav_file := wav_file s; line_ydata := line_ydata s;
     frame_count := frame_count s; start_time := start_time s;
     captured := v |}.

(** ** The monad of the program: state, exceptions, and waiting *)

Inductive result (A : Type) : Type :=
| Return (a : A)
| Raise (e : exn)
| Waiting.    (* blocked in a call the environment has not answered yet *)
Arguments Return {A} a.
Arguments Raise {A} e.
Arguments Waiting {A}.

Definition M (A : Type) : Type := process -> process * result A.

Definition ret {A : Type} (a : A) : M A := fun s => (s, Return a).

Definition bind {A B : Type} (m : M A) (k : A -> M B) : M B :=
  fun s =>
    match m s with
    | (s', Return a) => k a s'
    | (s', Raise e) => (s', Raise e)
    | (s', Waiting) => (s', Waiting)
    end.

Definition raise {A : Type} (e : exn) : M A := fun s => (s, Raise e).

Definition waiting {A : Type} : M A := fun s => (s, Waiting).

(** [try: m  except E: handler]. *)
Definition try_except {A : Type} (m : M A) (E : exn) (handler : M A) : M A :=
  fun s =>
    match m s with
    | (s', Raise e) => if exn_eqb e E then handler s' else (s', Raise e)
    | other => other
    end.

Definition get {A : Type} (f : process -> A) : M A := fun s => (s, Return (f s)).

Definition modify (f : process -> process) : M unit := fun s => (f s, Return tt).

(** A library call answered by the environment. *)
Definition call {A : Type} (o : outcome A) : M A :=
  match o with
  | Gives a => ret a
  | Fails e => raise e
  end.

Declare Scope py_scope.
Delimit Scope py_scope with py.
Notation "x <- m ;; k" := (bind m (fun x => k))
  (at level 61, m at next level, right associativity) : py_scope.
Notation "m ;; k" := (bind m (fun _ => k))
  (at level 61, right associativity) : py_scope.
Open Scope py_scope.

Definition print (m : message) : M unit :=
  modify (fun s => set_stdout (stdout s ++ [m]) s).

(** ** The library objects the program drives *)

(** The [wave] module, write side. *)
Module Wave.

Definition blank : wave_write :=
  {| nchannels := 0; sampwidth := 0; framerate := 0; headerwritten := false;
     data := []; finalized := false |}.

(** A method of [wav_file]. *)
Definition method (f : wave_write -> outcome wave_write) : M unit :=
  fun s =>
    match wav_file s with
    | None => (s, Raise AttributeError)
    | Some w =>
        match f w with
        | Gives w' => (set_wav_file (Some w') s, Return tt)
        | Fails e => (s, Raise e)
        end
    end.

Definition written (w : wave_write) : bool :=
  match data w with [] => false | _ :: _ => true end.

(** [wave.open(output_file, 'wb')] *)
Definition open (o : outcome unit) : M unit :=
  call o ;; modify (set_wav_file (Some blank)).

Definition setnchannels (n : Z) : M unit :=
  method (fun w =>
    if written w then Fails wave_Error
    else if n <? 1 then Fails wave_Error
    else Gives {| nchannels := n; sampwidth := sampwidth w;
                  framerate := framerate w;
                  headerwritten := headerwritten w; data := data w;
                  finalized := finalized w |}).

Definition setsampwidth (n : Z) : M unit :=
  method (fun w =>
    if written w then Fails wave_Error
    else if (n <? 1) || (4 <? n) then Fails wave_Error
    else Gives {| nchannels := nchannels w; sampwidth := n;
                  framerate := framerate w;
                  headerwritten := headerwritten w; data := data w;
                  finalized := finalized w |}).

Definition setframerate (n : Z) : M unit :=
  method (fun w =>
    if written w then Fails wave_Error
    else if n <=? 0 then Fails wave_Error
    else Gives {| nchannels := nchannels w; sampwidth := sampwidth w;
                  framerate := n;
                  headerwritten := headerwritten w; data := data w;
                  finalized := finalized w |}).

(** What [struct.pack] takes for the codes [H] and [L]. *)
Definition UINT16_MAX : Z := 65535.
Definition UINT32_MAX : Z := 4294967295.

Definition packs (max x : Z) : bool := (0 <=? x) && (x <=? max).

(** The [struct.pack] of [_write_header(initlength)]: the length of the
    form (the data length, [initlength] rounded down to whole sample
    frames, and 36), the channels, the rate, the bytes per second, the
    bytes per sample frame and the bits per sample. *)
Definition header_packs (w : wave_write) (initlength : Z) : bool :=
  let block := nchannels w * sampwidth w in
  packs UINT32_MAX (36 + initlength / block * block) &&
  packs UINT16_MAX (nchannels w) &&
  packs UINT32_MAX (framerate w) &&
  packs UINT32_MAX (nchannels w * framerate w * sampwidth w) &&
  packs UINT16_MAX block &&
  packs UINT16_MAX (sampwidth w * 8).

Definition with_header (w : wave_write) : wave_write :=
  {| nchannels := nchannels w; sampwidth := sampwidth w;
     framerate := framerate w; headerwritten := true; data := data w;
     finalized := finalized w |}.

(** [_ensure_header_written(datasize)]: the first time, the three fields
    must have been set and must pack. *)
Definition ensure_header_written (datasize : Z) (w : wave_write)
  : outcome wave_write :=
  if headerwritten w then Gives w
  else if (nchannels w =? 0) || (sampwidth w =? 0) || (framerate w =? 0)
  then Fails wave_Error
  else if negb (header_packs w datasize) then Fails struct_error
  else Gives (with_header w).

Definition append (w : wave_write) (bytes : list byte) : wave_write :=
  {| nchannels := nchannels w; sampwidth := sampwidth w;
     framerate := framerate w; headerwritten := headerwritten w;
     data := data w ++ bytes; finalized := finalized w |}.

(** [writeframes(data)], that is [writeframesraw(data)] and then
    [_patchheader()]: the header is written first if it has not been
    ([_ensure_header_written(len(data))]); the bytes go after everything
    written before; then, when the data length is no longer the one in the
    header, [_patchheader] packs the new length of the form, which must
    fit 32 bits.  Whatever reached the file stays there when the call
    raises.  (When the raise comes from the file the object is given with
    its header written; the program does not use it again.) *)
Definition writeframes (o : write_outcome) (audio_data : frame) : M unit :=
  fun s =>
    match wav_file s with
    | None => (s, Raise AttributeError)
    | Some w =>
        if finalized w then (s, Raise AttributeError)
        else
          match ensure_header_written (Z.of_nat (length audio_data)) w with
          | Fails e => (s, Raise e)
          | Gives w1 =>
              match o with
              | WriteRaises e kept =>
                  (set_wav_file (Some (append w1 (firstn kept audio_data))) s,
                   Raise e)
              | Written =>
                  let w2 := append w1 audio_data in
                  if (Z.of_nat (length audio_data) =? 0)
                     || packs UINT32_MAX (36 + Z.of_nat (length (data w2)))
                  then (set_wav_file (Some w2) s, Return tt)
                  else (set_wav_file (Some w2) s, Raise struct_error)
              end
          end
    end.

(** [close()]: nothing on a file already closed; otherwise the header is
    written if no frame was ([_ensure_header_written(0)]), and the file is
    flushed and closed, which is the environment's to answer.  (After a
    [writeframes] that returned, the lengths in the header are up to date
    and [_patchheader] has nothing to do here.) *)
Definition close (o : outcome unit) : M unit :=
  fun s =>
    match wav_file s with
    | None => (s, Raise AttributeError)
    | Some w =>
        if finalized w then (s, Return tt)
        else
          match ensure_header_written 0 w with
          | Fails e => (s, Raise e)
          | Gives w1 =>
              match o with
              | Fails e => (set_wav_file (Some w1) s, Raise e)
              | Gives _ =>
                  (set_wav_file
                     (Some {| nchannels := nchannels w1;
                              sampwidth := sampwidth w1;
                              framerate := framerate w1;
                              headerwritten := true; data := data w1;
                              finalized := true |}) s,
                   Return tt)
              end
          end
    end.

End Wave.

(** PyAudio: the instance and its one stream. *)
Module PyAudio.

Definition new : M unit := modify (set_audio Open).

Definition open (o : outcome unit) : M unit :=
  call o ;; modify (set_stream Active).

Definition read (c : cycle_env) : M frame :=
  audio_data <- call (read c) ;;
  modify (fun s => set_captured (captured s ++ [audio_data]) s) ;;
  ret audio_data.

Definition stop_stream (o : outcome unit) : M unit :=
  call o ;; modify (set_stream Stopped).

Definition close (o : outcome unit) : M unit :=
  call o ;; modify (set_stream Closed).

Definition terminate : M unit := modify (set_audio Released).

End PyAudio.

(** matplotlib: the figure and its one line. *)
Module Plot.

Definition subplots : M unit := modify (set_fig Open).

(** Lines 82-84: [np.random.rand(samples_per_frame)] refuses a negative
    size; for any other size both coordinate arrays have that length. *)
Definition plot (samples_per_frame : Z) : M unit :=
  if samples_per_frame <? 0 then raise ValueError
  else modify (set_line_ydata None).

Definition set_ydata (data_np : list Z) : M unit :=
  modify (set_line_ydata (Some data_np)).

Definition draw_and_flush (c : cycle_env) : M unit := call (redraw c).

End Plot.

(** ** [visualize_audio] (lines 42-138) *)

(** Lines 112-113 inside the loop: [struct.unpack] raises on a buffer of
    the wrong size. *)
Definition unpack_series (samples_per_frame : Z) (audio_data : frame)
  : M (list Z) :=
  match Transcoder.to_series samples_per_frame audio_data with
  | Some data_np => ret data_np
  | None => raise struct_error
  end.

(** Line 125: [frame_count / (time.time() - start_time)], kept as the pair
    of its operands. *)
Definition true_divide (a b : Z) : M (Z * Z) :=
  if b =? 0 then raise ZeroDivisionError else ret (a, b).

(** Lines 104-128.  The [try] yields [true] when the loop goes round again
    and [false] when the handler reaches [break]. *)
Fixpoint capture_loop (samples_per_frame : Z) (turns : list cycle_env)
  : M unit :=
  match turns with
  | [] => waiting
  | c :: later =>
      audio_data <- PyAudio.read c ;;
      Wave.writeframes (write c) audio_data ;;
      data_np <- unpack_series samples_per_frame audio_data ;;
      Plot.set_ydata data_np ;;
      again <- try_except
                 (Plot.draw_and_flush c ;;
                  modify (fun s => set_frame_count (frame_count s + 1) s) ;;
                  ret true)
                 TclError
                 (n <- get frame_count ;;
                  t0 <- get start_time ;;
                  frame_rate <- true_divide n (clock c - t0) ;;
                  print SayStopped ;;
                  print (SayFrameRate (fst frame_rate) (snd frame_rate)) ;;
                  ret false) ;;
      if again then capture_loop samples_per_frame later else ret tt
  end.

(** A call starts with none of its local names bound. *)
Definition fresh_locals (s : process) : process :=
  {| stdout := stdout s; fig := Absent; audio := Absent; stream := NoStream;
     wav_file := None; line_ydata := None; frame_count := 0;
     start_time := 0; captured := [] |}.

(** Lines 130-138, what follows the loop. *)
Definition finish (env : run_env) : M bool :=
  Wave.close (wav_close env) ;;
  PyAudio.stop_stream (stream_stop env) ;;
  PyAudio.close (stream_close env) ;;
  PyAudio.terminate ;;
  ret true.

(** The function.  [device_index], [audio_format] and [output_file] only
    travel to the libraries, whose answers are in [env].  The [try] of
    lines 60-73 yields [false] when its handler returns [False].  Lines
    86-96 (title, labels, limits, grid, [plt.show(block=False)]) change
    nothing that is modelled. *)
Definition visualize_audio
    (device_index samples_per_frame audio_format num_channels sample_rate : Z)
    (output_file : string) (env : run_env) : M bool :=
  modify fresh_locals ;;
  Plot.subplots ;;
  PyAudio.new ;;
  opened <- try_except
              (PyAudio.open (stream_open env) ;; ret true)
              OSError
              (print SayInvalidIndex ;; ret false) ;;
  if negb opened then ret false
  else
    Wave.open (wave_open env) ;;
    Wave.setnchannels num_channels ;;
    width <- call (sample_size env) ;;
    Wave.setsampwidth width ;;
    Wave.setframerate sample_rate ;;
    Plot.plot samples_per_frame ;;
    print SayStarted ;;
    modify (set_frame_count 0) ;;
    modify (set_start_time (clock_start env)) ;;
    capture_loop samples_per_frame (cycles env) ;;
    finish env.

(** ** Device selection (lines 16-40 and 140-158) *)

(** What a PyAudio instance reports of host API 0: its devices, in index
    order; ['deviceCount'] is their number. *)
Record device_info : Type := {
  name : string;
  maxInputChannels : Z
}.

Definition host_api : Type := list device_info.

Definition deviceCount (audio_instance : host_api) : Z :=
  Z.of_nat (length audio_instance).

Definition validate_device (device_index : Z) (audio_instance : host_api)
  : bool :=
  let num_devices := deviceCount audio_instance in
  if (device_index <? 0) || (device_index >=? num_devices) then false
  else true.

(** The body of the [for] of [list_devices], from index [i] on. *)
Fixpoint list_devices_from (i : Z) (devices : list device_info) : M unit :=
  match devices with
  | [] => ret tt
  | d :: rest =>
      (if maxInputChannels d >? 0 then print (SayDevice i (name d))
       else ret tt) ;;
      list_devices_from (i + 1) rest
  end.

Definition list_devices (audio_instance : host_api) : M unit :=
  list_devices_from 0 audio_instance.

(** One turn of the [while True] of [select_device]: the instance that is
    listed, what [int(input(...))] comes to, and the instance the answer
    is validated on. *)
Record prompt_round : Type := {
  listed : host_api;
  answer : outcome Z;
  checked : host_api
}.

(** The [try] yields [Some index] at [return device_index] and [None] when
    the loop goes round again.  The rounds not used are handed back. *)
Fixpoint select_device (rounds : list prompt_round)
  : M (Z * list prompt_round) :=
  match rounds with
  | [] => waiting
  | r :: later =>
      list_devices (listed r) ;;
      chosen <- try_except
                  (print SayPrompt ;;
                   device_index <- call (answer r) ;;
                   if validate_device device_index (checked r)
                   then ret (Some device_index)
                   else print SayInvalidIndex ;; ret None)
                  ValueError
                  (print SayInvalidInput ;; ret None) ;;
      match chosen with
      | Some device_index => ret (device_index, later)
      | None => select_device later
      end
  end.

(** ** The script (lines 160-189) *)

Record arguments : Type := {
  input_device : option Z;
  samples_per_frame : Z;
  audio_format : Z;
  num_channels : Z;
  sample_rate : Z;
  output_file : string
}.

(** Lines 11-14 and the defaults of the parser; [paInt16] is 8. *)
Definition SAMPLES_PER_FRAME : Z := 1024 * 2.
Definition AUDIO_FORMAT : Z := 8.
Definition NUM_CHANNELS : Z := 1.
Definition SAMPLE_RATE : Z := 44100.

Definition defaults : arguments :=
  {| input_device := None; samples_per_frame := SAMPLES_PER_FRAME;
     audio_format := AUDIO_FORMAT; num_channels := NUM_CHANNELS;
     sample_rate := SAMPLE_RATE; output_file := "output.wav" |}.

(** Lines 184-189: one environment for each call of [visualize_audio]. *)
Fixpoint driver_loop (args : arguments) (device_index : Z)
    (runs : list run_env) (rounds : list prompt_round) : M unit :=
  match runs with
  | [] => waiting
  | env :: later =>
      success <- visualize_audio device_index (samples_per_frame args)
                   (audio_format args) (num_channels args)
                   (sample_rate args) (output_file args) env ;;
      if negb success then
        selected <- select_device rounds ;;
        driver_loop args (fst selected) later (snd selected)
      else ret tt
  end.

(** Lines 177-189.  [Return tt] is the normal end of the process, [Raise]
    its end with a traceback. *)
Definition main (args : arguments) (at_start : host_api)
    (runs : list run_env) (rounds : list prompt_round) : M unit :=
  selected <- match input_device args with
              | None => select_device rounds
              | Some index =>
                  if negb (validate_device index at_start)
                  then select_device rounds
                  else ret (index, rounds)
              end ;;
  driver_loop args (fst selected) runs (snd selected).

(** ** Vocabulary of the statements *)

(** The bytes the output file holds after its header. *)
Definition recorded (s : process) : list byte :=
  match wav_file s with
  | Some w => data w
  | None => []
  end.

(** The answers and arguments with which a call gets as far as its loop:
    the stream and the file open, the format has a sample size, and the
    [wave] setters and the plot accept their arguments. *)
Definition starts_recording (spf channels rate : Z) (env : run_env)
    (width : Z) : Prop :=
  stream_open env = Gives tt /\ wave_open env = Gives tt /\
  sample_size env = Gives width /\
  1 <= channels /\ 1 <= width <= 4 /\ 0 < rate /\ 0 <= spf.

(** The process on entering the loop. *)
Definition at_loop (s : process) (channels width rate : Z) (env : run_env)
  : process :=
  {| stdout := stdout s ++ [SayStarted]; fig := Open; audio := Open;
     stream := Active;
     wav_file := Some {| nchannels := channels; sampwidth := width;
                         framerate := rate; headerwritten := false;
                         data := []; finalized := false |};
     line_ydata := None; frame_count := 0; start_time := clock_start env;
     captured := [] |}.

(** The file object after a [writeframes] that wrote [bytes] more. *)
Definition extend (w : wave_write) (bytes : list byte) : wave_write :=
  {| nchannels := nchannels w; sampwidth := sampwidth w;
     framerate := framerate w; headerwritten := true;
     data := data w ++ bytes; finalized := finalized w |}.

(** The file object after a successful [close()]. *)
Definition finalize (w : wave_write) : wave_write :=
  {| nchannels := nchannels w; sampwidth := sampwidth w;
     framerate := framerate w; headerwritten := true; data := data w;
     finalized := true |}.

(** A WAV header can carry these fields and the lengths of a body of
    [bytes] bytes: the channels and the bytes per sample frame in 16 bits,
    the rate, the bytes per second and the length of the form in 32. *)
Definition wav_holds (channels width rate bytes : Z) : Prop :=
  channels <= 65535 /\ rate <= 4294967295 /\
  channels * rate * width <= 4294967295 /\ channels * width <= 65535 /\
  36 + bytes <= 4294967295.

(** The length of some frames put end to end, in bytes. *)
Definition total_bytes (fs : list frame) : Z := Z.of_nat (length (concat fs)).

(** The process once a turn of the loop has read [f], written it and put
    [series] on the line (lines 106-116). *)
Definition turn_shown (s : process) (w : wave_write) (f : frame)
    (series : list Z) : process :=
  {| stdout := stdout s; fig := fig s; audio := audio s; stream := stream s;
     wav_file := Some (extend w f); line_ydata := Some series;
     frame_count := frame_count s; start_time := start_time s;
     captured := captured s ++ [f] |}.

(** The file object after a [writeframes] for each frame of [fs]. *)
Definition grown (w : wave_write) (fs : list frame) : wave_write :=
  match fs with
  | [] => w
  | _ :: _ => extend w (concat fs)
  end.

(** The process after a turn has redrawn for each frame of [fs] in order
    (lines 106-122, once per frame). *)
Definition after_turns (s : process) (w : wave_write) (fs : list frame)
  : process :=
  {| stdout := stdout s; fig := fig s; audio := audio s; stream := stream s;
     wav_file := Some (grown w fs);
     line_ydata :=
       last (map (fun f => Some (Transcoder.to_series_spec f)) fs)
            (line_ydata s);
     frame_count := frame_count s + Z.of_nat (length fs);
     start_time := start_time s;
     captured := captured s ++ fs |}.

(** A file object as the setters and successful writes leave it, not
    closed: the fields are set, and either no header has been written and
    the file is empty, or the header carries the fields and the lengths. *)
Definition writable (w : wave_write) : Prop :=
  finalized w = false /\ 1 <= nchannels w /\ 1 <= sampwidth w <= 4 /\
  1 <= framerate w /\
  if headerwritten w
  then wav_holds (nchannels w) (sampwidth w) (framerate w)
         (Z.of_nat (length (data w)))
  else data w = [].

(** A turn of the loop that reads frame [f], writes it and redraws. *)
Definition drawn_turn (spf : Z) (c : cycle_env) (f : frame) : Prop :=
  read c = Gives f /\ write c = Written /\
  Z.of_nat (length f) = 2 * spf /\ redraw c = Gives tt.

(** A turn that reads frame [f], writes it and finds the window closed,
    at a clock reading other than [t0]. *)
Definition closing_turn (spf t0 : Z) (c : cycle_env) (f : frame) : Prop :=
  read c = Gives f /\ write c = Written /\
  Z.of_nat (length f) = 2 * spf /\
  redraw c = Fails TclError /\ clock c <> t0.

(** How one turn of the loop comes out: the loop goes round again, or it
    is left, through its [break] or with an exception. *)
Inductive turn_end : Type :=
| GoesRound (s' : process)
| Leaves (s' : process) (r : result unit).

(** The ways a turn answered by [c] can come out, from a process [s] whose
    file object is [w] (lines 106-128, statement by statement). *)
Inductive turn_comes_to (spf : Z) (c : cycle_env) (s : process)
    (w : wave_write) : turn_end -> Prop :=
| ReadRaises (e : exn) :
    read c = Fails e ->
    turn_comes_to spf c s w (Leaves s (Raise e))
| WriteRaised (f : frame) (e : exn) (kept : nat) (w' : wave_write) :
    read c = Gives f ->
    nchannels w' = nchannels w -> sampwidth w' = sampwidth w ->
    framerate w' = framerate w -> finalized w' = false ->
    data w' = data w ++ firstn kept f ->
    (e = struct_error /\
     ~ wav_holds (nchannels w) (sampwidth w) (framerate w)
         (Z.of_nat (length (data w ++ f)))) \/
    write c = WriteRaises e kept ->
    turn_comes_to spf c s w
      (Leaves (set_wav_file (Some w') (set_captured (captured s ++ [f]) s))
              (Raise e))
| UnpackRaises (f : frame) :
    read c = Gives f -> write c = Written -> writable (extend w f) ->
    Z.of_nat (length f) <> 2 * spf ->
    turn_comes_to spf c s w
      (Leaves (set_wav_file (Some (extend w f))
                 (set_captured (captured s ++ [f]) s))
              (Raise struct_error))
| Redraws (f : frame) :
    drawn_turn spf c f -> writable (extend w f) ->
    turn_comes_to spf c s w
      (GoesRound
         (set_frame_count (frame_count s + 1)
            (turn_shown s w f (Transcoder.to_series_spec f))))
| WindowClosed (f : frame) :
    closing_turn spf (start_time s) c f -> writable (extend w f) ->
    turn_comes_to spf c s w
      (Leaves
         (set_stdout
            (stdout s ++ [SayStopped;
                          SayFrameRate (frame_count s)
                                       (clock c - start_time s)])
            (turn_shown s w f (Transcoder.to_series_spec f)))
         (Return tt))
| DividesByZero (f : frame) :
    read c = Gives f -> write c = Written -> writable (extend w f) ->
    Z.of_nat (length f) = 2 * spf ->
    redraw c = Fails TclError -> clock c = start_time s ->
    turn_comes_to spf c s w
      (Leaves (turn_shown s w f (Transcoder.to_series_spec f))
              (Raise ZeroDivisionError))
| RedrawRaises (f : frame) (e : exn) :
    read c = Gives f -> write c = Written -> writable (extend w f) ->
    Z.of_nat (length f) = 2 * spf ->
    redraw c = Fails e -> e <> TclError ->
    turn_comes_to spf c s w
      (Leaves (turn_shown s w f (Transcoder.to_series_spec f)) (Raise e)).

(** The turns of a call in which the window is closed after [fs] have been
    drawn: a drawn turn for each frame of [fs], then the turn that reads
    [f] and meets [TclError]. *)
Definition closed_after (spf : Z) (env : run_env) (fs : list frame)
    (c : cycle_env) (f : frame) : Prop :=
  exists (goods later : list cycle_env),
    cycles env = goods ++ c :: later /\
    Forall2 (drawn_turn spf) goods fs /\
    closing_turn spf (clock_start env) c f.

(** The process at the [break] of such a call. *)
Definition at_break (s : process) (channels width rate : Z) (env : run_env)
    (fs : list frame) (c : cycle_env) (f : frame) : process :=
  {| stdout := stdout s ++
               [SayStarted; SayStopped;
                SayFrameRate (Z.of_nat (length fs))
                             (clock c - clock_start env)];
     fig := Open; audio := Open; stream := Active;
     wav_file := Some {| nchannels := channels; sampwidth := width;
                         framerate := rate; headerwritten := true;
                         data := concat (fs ++ [f]); finalized := false |};
     line_ydata := Some (Transcoder.to_series_spec f);
     frame_count := Z.of_nat (length fs);
     start_time := clock_start env;
     captured := fs ++ [f] |}.

(** Every call of the teardown succeeds. *)
Definition closes_cleanly (env : run_env) : Prop :=
  wav_close env = Gives tt /\ stream_stop env = Gives tt /\
  stream_close env = Gives tt.

(** The lines [list_devices] prints for [devices], numbered from [i]. *)
Fixpoint device_lines (i : Z) (devices : list device_info) : list message :=
  match devices with
  | [] => []
  | d :: rest =>
      (if maxInputChannels d >? 0 then [SayDevice i (name d)] else [])
      ++ device_lines (i + 1) rest
  end.

(** A call of [visualize_audio] PyAudio refuses to open the stream for. *)
Definition refusing (env : run_env) : Prop := stream_open env = Fails OSError.

(** A round of [select_device] in which the user types the integer [i] and
    [i] is an index of the instance it is validated on. *)
Definition picks (r : prompt_round) (i : Z) : Prop :=
  answer r = Gives i /\ validate_device i (checked r) = true.

(** A round of [select_device] that goes round again: the input is not an
    integer, or it is one that [validate_device] turns down. *)
Definition rejected (r : prompt_round) : Prop :=
  answer r = Fails ValueError \/
  exists j, answer r = Gives j /\ validate_device j (checked r) = false.

(** What a line shows: the random curve of line 84, or a series of
    [spf] values within the limits of the y axis. *)
Definition fits_plot (spf : Z) (ydata : option (list Z)) : Prop :=
  match ydata with
  | None => True
  | Some series =>
      Z.of_nat (length series) = spf /\ Forall (fun v => 0 <= v <= 255) series
  end.

(** ** Sample environments *)

Module Samples.

(** Three frames of four 16-bit samples each. *)
Definition f1 : frame := [x00; x01; x7f; x03; x80; x05; xff; x07].
Definition f2 : frame := [x10; x11; x20; x21; x90; x91; xa0; xa1].
Definition f3 : frame := [x01; x00; x02; x00; x03; x00; x04; x00].

Definition drawn (f : frame) : cycle_env :=
  {| read := Gives f; write := Written; redraw := Gives tt; clock := 0 |}.

Definition closing (f : frame) (now : Z) : cycle_env :=
  {| read := Gives f; write := Written; redraw := Fails TclError;
     clock := now |}.

Definition unplugged : cycle_env :=
  {| read := Fails OSError; write := Written; redraw := Gives tt;
     clock := 0 |}.


(** A device and a disk that work, 2-byte samples, the clock at 100. *)
Definition healthy (turns : list cycle_env) : run_env :=
  {| stream_open := Gives tt; wave_open := Gives tt; sample_size := Gives 2;
     clock_start := 100; cycles := turns;
     wav_close := Gives tt; stream_stop := Gives tt;
     stream_close := Gives tt |}.

(** The window is closed after two redraws, three seconds in. *)
Definition three_frames : run_env :=
  healthy [drawn f1; drawn f2; closing f3 103].

(** The window is closed before the first redraw. *)
Definition closed_at_once : run_env := healthy [closing f1 101].

(** The device fails on the second read. *)
Definition lost_device : run_env := healthy [drawn f1; unplugged].

(** PyAudio refuses the device index. *)
Definition refused : run_env :=
  {| stream_open := Fails OSError; wave_open := Gives tt;
     sample_size := Gives 2; clock_start := 100; cycles := [];
     wav_close := Gives tt; stream_stop := Gives tt;
     stream_close := Gives tt |}.

(** The window is closed and then the file cannot be flushed. *)
Definition disk_full : run_env :=
  {| stream_open := Gives tt; wave_open := Gives tt; sample_size := Gives 2;
     clock_start := 100; cycles := [closing f1 101];
     wav_close := Fails OSError; stream_stop := Gives tt;
     stream_close := Gives tt |}.

(** Two channels of 1-byte samples ([paInt8] is 16): a read of four
    sample frames is 4 * 2 * 1 bytes. *)
Definition stereo_8bit : run_env :=
  {| stream_open := Gives tt; wave_open := Gives tt; sample_size := Gives 1;
     clock_start := 100; cycles := [closing f1 101];
     wav_close := Gives tt; stream_stop := Gives tt;
     stream_close := Gives tt |}.

(** Two channels of 2-byte samples: a read of four sample frames is
    4 * 2 * 2 bytes. *)
Definition stereo_16bit : run_env := healthy [drawn (f1 ++ f2)].

Definition two_devices : host_api :=
  [ {| name := "Microphone"; maxInputChannels := 2 |};
    {| name := "Speakers"; maxInputChannels := 0 |} ].

(** The user types a word, then 7, then 1. *)
Definition three_answers : list prompt_round :=
  [ {| listed := two_devices; answer := Fails ValueError;
       checked := two_devices |};
    {| listed := two_devices; answer := Gives 7; checked := two_devices |};
    {| listed := two_devices; answer := Gives 1; checked := two_devices |} ].

Definition cli : arguments :=
  {| input_device := Some 0; samples_per_frame := 4; audio_format := 8;
     num_channels := 1; sample_rate := 8000; output_file := "output.wav" |}.

(** The window is closed within the first tick of the clock. *)
Definition closed_in_no_time : run_env := healthy [drawn f1; closing f2 100].

(** The redraw of the second turn fails with something other than
    [TclError]. *)
Definition broken_canvas : run_env :=
  healthy [drawn f1;
           {| read := Gives f2; write := Written; redraw := Fails ValueError;
              clock := 0 |}].

(** The stream opens, the output file cannot be created. *)
Definition unwritable : run_env :=
  {| stream_open := Gives tt; wave_open := Fails OSError;
     sample_size := Gives 2; clock_start := 100; cycles := [];
     wav_close := Gives tt; stream_stop := Gives tt;
     stream_close := Gives tt |}.


(** The device keeps delivering and the window stays open. *)
Definition still_open : run_env := healthy [drawn f1; drawn f2].

(** The user types a word, then the input ends. *)
Definition input_ends : list prompt_round :=
  [ {| listed := two_devices; answer := Fails ValueError;
       checked := two_devices |};
    {| listed := two_devices; answer := Fails EOFError;
       checked := two_devices |} ].

End Samples.

(** * Properties *)

(** ** The transcoder *)

Section TranscoderFacts.

Import Transcoder.

Lemma byte_value_range (b : byte) : 0 <= byte_value b <= 255.
Proof.
  unfold byte_value. pose proof (Byte.to_N_bounded b). lia.
Qed.

Lemma int8_byte_value (b : byte) : int8 (byte_value b) = signed8 b.
Proof.
  pose proof (byte_value_range b) as Hb. unfold int8, signed8.
  destruct (Z.ltb_spec (byte_value b) 128).
  - rewrite Z.mod_small by lia. lia.
  - replace (byte_value b + 128) with ((byte_value b - 128) + 1 * 256) by lia.
    rewrite Z.mod_add by lia. rewrite Z.mod_small by lia. lia.
Qed.

Lemma signed8_range (b : byte) : -128 <= signed8 b <= 127.
Proof.
  pose proof (byte_value_range b). unfold signed8.
  destruct (Z.ltb_spec (byte_value b) 128); lia.
Qed.

Lemma int16_small (v : Z) : -32768 <= v < 32768 -> int16 v = v.
Proof.
  intros Hv. unfold int16. rewrite Z.mod_small by lia. lia.
Qed.

Lemma stride2_map {A B : Type} (f : A -> B) (l : list A) :
  stride2 (map f l) = map f (stride2 l).
Proof.
  revert l. fix IH 1. intros [|x [|y rest]]; simpl.
  - reflexivity.
  - reflexivity.
  - f_equal. apply IH.
Qed.

Lemma stride2_length {A : Type} (n : nat) :
  forall l : list A, length l = (2 * n)%nat -> length (stride2 l) = n.
Proof.
  induction n as [|n IH]; intros l Hl.
  - destruct l; [reflexivity | discriminate].
  - destruct l as [|x [|y rest]]; simpl in Hl; try lia.
    simpl. f_equal. apply IH. lia.
Qed.

Lemma stride2_Forall {A : Type} (P : A -> Prop) :
  forall l : list A, Forall P l -> Forall P (stride2 l).
Proof.
  fix IH 1. intros [|x [|y rest]] H; simpl.
  - constructor.
  - assumption.
  - inversion H as [|? ? Hx Hrest]; subst.
    inversion Hrest as [|? ? Hy Hrest']; subst.
    constructor; [assumption | apply IH; assumption].
Qed.

Lemma series_of_bytes (l : frame) :
  map (fun v => int16 (v + 128)) (stride2 (map int8 (map byte_value l)))
  = to_series_spec l.
Proof.
  rewrite map_map, stride2_map, map_map. unfold to_series_spec, BIAS.
  apply map_ext. intros b. rewrite int8_byte_value.
  pose proof (signed8_range b). apply int16_small. lia.
Qed.

Lemma to_series_sized (spf : Z) (f : frame) :
  Z.of_nat (length f) = 2 * spf -> to_series spf f = Some (to_series_spec f).
Proof.
  intros Hlen. unfold to_series, struct_unpack_B.
  replace (0 <=? 2 * spf) with true by (symmetry; apply Z.leb_le; lia).
  rewrite (proj2 (Z.eqb_eq _ _) Hlen). simpl.
  rewrite series_of_bytes. reflexivity.
Qed.

Lemma to_series_missized (spf : Z) (f : frame) :
  Z.of_nat (length f) <> 2 * spf -> to_series spf f = None.
Proof.
  intros Hlen. unfold to_series, struct_unpack_B.
  rewrite (proj2 (Z.eqb_neq _ _) Hlen), andb_false_r. reflexivity.
Qed.

Lemma to_series_spec_length (spf : Z) (f : frame) :
  Z.of_nat (length f) = 2 * spf ->
  Z.of_nat (length (to_series_spec f)) = spf.
Proof.
  intros Hlen. unfold to_series_spec. rewrite length_map.
  rewrite (stride2_length (Z.to_nat spf)); lia.
Qed.

Lemma to_series_spec_range (f : frame) :
  Forall (fun v => 0 <= v <= 255) (to_series_spec f).
Proof.
  unfold to_series_spec. apply Forall_map. apply stride2_Forall.
  apply Forall_forall. intros b _. pose proof (signed8_range b).
  unfold BIAS. lia.
Qed.

(** C2.  On every frame the transcoding of lines 112-113 is the reference
    function of the specification (every second byte from offset 0, read
    as a signed 8-bit value, plus the bias 128) when the frame has the
    2 x samples_per_frame bytes of the default format, and raises
    otherwise. *)
Theorem to_series_is_reference (spf : Z) (f : frame) :
  to_series spf f =
    if Z.of_nat (length f) =? 2 * spf then Some (to_series_spec f) else None.
Proof.
  destruct (Z.eqb_spec (Z.of_nat (length f)) (2 * spf)) as [Hlen | Hlen].
  - apply to_series_sized; assumption.
  - apply to_series_missized; assumption.
Qed.

End TranscoderFacts.

(** ** The transcoding step of the loop *)

Lemma to_series_some_sized (spf : Z) (f : frame) (series : list Z) :
  Transcoder.to_series spf f = Some series ->
  Z.of_nat (length f) = 2 * spf /\ series = Transcoder.to_series_spec f.
Proof.
  intros Hseries.
  destruct (Z.eq_dec (Z.of_nat (length f)) (2 * spf)) as [Hlen | Hlen].
  - rewrite (to_series_sized spf f Hlen) in Hseries.
    injection Hseries as <-. split; [exact Hlen | reflexivity].
  - rewrite (to_series_missized spf f Hlen) in Hseries. discriminate.
Qed.

(** C5.  For every frame, of whatever size: the transcoding step of the
    loop leaves the state of the process as it was and gives the same
    result in every state; when it yields a series, the series has
    samples_per_frame values, each in [0, 255] (and the frame had
    2 x samples_per_frame bytes); when it yields none it raises
    [struct.error], which happens exactly on a frame of another size. *)
Theorem transcoding_pure_and_bounded (spf : Z) (f : frame) :
  (forall s : process, fst (unpack_series spf f s) = s) /\
  (forall s1 s2 : process,
     snd (unpack_series spf f s1) = snd (unpack_series spf f s2)) /\
  match Transcoder.to_series spf f with
  | Some series =>
      (forall s : process, unpack_series spf f s = (s, Return series)) /\
      Z.of_nat (length series) = spf /\
      Forall (fun v => 0 <= v <= 255) series /\
      Z.of_nat (length f) = 2 * spf
  | None =>
      (forall s : process, unpack_series spf f s = (s, Raise struct_error)) /\
      Z.of_nat (length f) <> 2 * spf
  end.
Proof.
  unfold unpack_series.
  destruct (Transcoder.to_series spf f) as [series |] eqn:Hseries.
  - split; [reflexivity |]. split; [reflexivity |].
    split; [reflexivity |].
    destruct (to_series_some_sized spf f series Hseries) as (Hlen & ->).
    split; [apply to_series_spec_length; exact Hlen |].
    split; [apply to_series_spec_range | exact Hlen].
  - split; [reflexivity |]. split; [reflexivity |].
    split; [reflexivity |]. intros Hlen.
    rewrite (to_series_sized spf f Hlen) in Hseries. discriminate.
Qed.

(** The three frames of the worked scenario (samples_per_frame = 4) and
    their series by the stride-2-plus-bias rule. *)
Example scenario_series :
  Transcoder.to_series 4 Samples.f1 = Some [128; 255; 0; 127] /\
  Transcoder.to_series 4 Samples.f2 = Some [144; 160; 16; 32] /\
  Transcoder.to_series 4 Samples.f3 = Some [129; 130; 131; 132].
Proof. repeat split. Qed.

(** ** Writing a frame *)

Lemma set_wav_file_same (s : process) (w : wave_write) :
  wav_file s = Some w -> set_wav_file (Some w) s = s.
Proof. intros Hw. destruct s. cbn in *. subst. reflexivity. Qed.

Lemma header_packs_fits (w : wave_write) (n room : Z) :
  1 <= nchannels w -> 1 <= sampwidth w <= 4 -> 1 <= framerate w ->
  wav_holds (nchannels w) (sampwidth w) (framerate w) room ->
  0 <= n <= room ->
  Wave.header_packs w n = true.
Proof.
  intros Hch Hwd Hrate (H1 & H2 & H3 & H4 & H5) Hn.
  assert (Hblock : 0 < nchannels w * sampwidth w) by nia.
  pose proof (Z.mul_div_le n _ Hblock) as Hle.
  assert (0 <= n / (nchannels w * sampwidth w))
    by (apply Z.div_pos; lia).
  unfold Wave.header_packs, Wave.packs, Wave.UINT16_MAX, Wave.UINT32_MAX.
  cbv zeta.
  repeat (apply andb_true_intro; split); apply Z.leb_le; nia.
Qed.

Lemma header_packs_holds (w : wave_write) (n : Z) :
  Wave.header_packs w n = true ->
  nchannels w <= 65535 /\ framerate w <= 4294967295 /\
  nchannels w * framerate w * sampwidth w <= 4294967295 /\
  nchannels w * sampwidth w <= 65535 /\
  36 + n / (nchannels w * sampwidth w) * (nchannels w * sampwidth w)
  <= 4294967295.
Proof.
  unfold Wave.header_packs, Wave.packs, Wave.UINT16_MAX, Wave.UINT32_MAX.
  cbv zeta. intros H.
  rewrite !andb_true_iff, !Z.leb_le in H. intuition lia.
Qed.

Lemma writable_extend (w : wave_write) (bytes : list byte) :
  writable w ->
  wav_holds (nchannels w) (sampwidth w) (framerate w)
    (Z.of_nat (length (data w ++ bytes))) ->
  writable (extend w bytes).
Proof.
  intros (Hfin & Hch & Hwd & Hrate & _) Hroom.
  exact (conj Hfin (conj Hch (conj Hwd (conj Hrate Hroom)))).
Qed.

(** A write that the file takes and whose lengths the header can carry
    adds the frame, whole. *)
Lemma writeframes_written (w : wave_write) (bytes : frame) (s0 : process) :
  wav_file s0 = Some w -> writable w ->
  wav_holds (nchannels w) (sampwidth w) (framerate w)
    (Z.of_nat (length (data w ++ bytes))) ->
  Wave.writeframes Written bytes s0 =
  (set_wav_file (Some (extend w bytes)) s0, Return tt) /\
  writable (extend w bytes).
Proof.
  intros Hw0 Hwr Hroom.
  split; [| apply writable_extend; assumption].
  destruct Hwr as (Hfin & Hch & Hwd & Hrate & Hsound).
  - unfold Wave.writeframes, Wave.ensure_header_written. rewrite Hw0, Hfin.
    assert (Hfit : Wave.packs Wave.UINT32_MAX
                     (36 + Z.of_nat (length (data w ++ bytes))) = true).
    { destruct Hroom as (_ & _ & _ & _ & H5).
      unfold Wave.packs, Wave.UINT32_MAX.
      apply andb_true_intro; split; apply Z.leb_le; lia. }
    destruct (headerwritten w) eqn:Hhw.
    + cbn [Wave.append data]. rewrite Hfit, orb_true_r.
      unfold extend, Wave.append. rewrite Hhw. reflexivity.
    + replace ((nchannels w =? 0) || (sampwidth w =? 0) || (framerate w =? 0))
        with false
        by (symmetry; repeat (apply orb_false_intro); apply Z.eqb_neq; lia).
      rewrite (header_packs_fits w (Z.of_nat (length bytes)) _ Hch Hwd Hrate
                 Hroom) by (rewrite length_app; lia).
      cbn [negb Wave.append Wave.with_header data]. rewrite Hfit, orb_true_r.
      reflexivity.
Qed.

Lemma no_room (w : wave_write) (bytes : list byte) :
  Wave.packs Wave.UINT32_MAX (36 + Z.of_nat (length (data w ++ bytes)))
  = false ->
  ~ wav_holds (nchannels w) (sampwidth w) (framerate w)
      (Z.of_nat (length (data w ++ bytes))).
Proof.
  unfold Wave.packs, Wave.UINT32_MAX. intros Hfit (_ & _ & _ & _ & H5).
  apply andb_false_iff in Hfit as [Hfit | Hfit].
  - apply Z.leb_gt in Hfit. lia.
  - apply Z.leb_gt in Hfit. lia.
Qed.

(** Whatever the file answers: either the frame is added whole and the
    call returns, or the call raises with a part of the frame, or none or
    all of it, in the file; it raises when the file does, and with
    [struct.error] when a WAV header cannot carry the fields or the new
    length. *)
Lemma writeframes_result (o : write_outcome) (w : wave_write) (bytes : frame)
    (s0 : process) :
  wav_file s0 = Some w -> writable w ->
  (o = Written /\
   Wave.writeframes o bytes s0 =
   (set_wav_file (Some (extend w bytes)) s0, Return tt) /\
   writable (extend w bytes)) \/
  (exists (e : exn) (kept : nat) (w' : wave_write),
     Wave.writeframes o bytes s0 = (set_wav_file (Some w') s0, Raise e) /\
     nchannels w' = nchannels w /\ sampwidth w' = sampwidth w /\
     framerate w' = framerate w /\ finalized w' = false /\
     data w' = data w ++ firstn kept bytes /\
     ((e = struct_error /\
       ~ wav_holds (nchannels w) (sampwidth w) (framerate w)
           (Z.of_nat (length (data w ++ bytes)))) \/
      o = WriteRaises e kept)).
Proof.
  intros Hw0 Hwr. pose proof Hwr as (Hfin & Hch & Hwd & Hrate & Hsound).
  unfold Wave.writeframes, Wave.ensure_header_written. rewrite Hw0, Hfin.
  assert (Hzero : (nchannels w =? 0) || (sampwidth w =? 0)
                  || (framerate w =? 0) = false)
    by (repeat (apply orb_false_intro); apply Z.eqb_neq; lia).
  destruct (headerwritten w) eqn:Hhw.
  - destruct o as [| e kept].
    + cbn [Wave.append data].
      destruct ((Z.of_nat (length bytes) =? 0)
                || Wave.packs Wave.UINT32_MAX
                     (36 + Z.of_nat (length (data w ++ bytes)))) eqn:Hfit.
      * left. split; [reflexivity |].
        assert (Heq : Wave.append w bytes = extend w bytes)
          by (unfold extend, Wave.append; rewrite Hhw; reflexivity).
        rewrite Heq. split; [reflexivity |].
        apply writable_extend; [exact Hwr |].
        apply orb_prop in Hfit as [Hempty | Hfit].
        -- apply Z.eqb_eq in Hempty.
           assert (bytes = []) as ->
             by (destruct bytes; [reflexivity | cbn in Hempty; lia]).
           rewrite app_nil_r. exact Hsound.
        -- destruct Hsound as (H1 & H2 & H3 & H4 & _).
           unfold Wave.packs, Wave.UINT32_MAX in Hfit.
           apply andb_prop in Hfit as [_ Hfit]. apply Z.leb_le in Hfit.
           exact (conj H1 (conj H2 (conj H3 (conj H4 Hfit)))).
      * right. exists struct_error, (length bytes), (Wave.append w bytes).
        rewrite firstn_all. apply orb_false_elim in Hfit as [_ Hfit].
        repeat split; auto. left. split; [reflexivity |].
        apply no_room. exact Hfit.
    + right. exists e, kept, (Wave.append w (firstn kept bytes)).
      repeat split; auto.
  - rewrite Hzero.
    destruct (Wave.header_packs w (Z.of_nat (length bytes))) eqn:Hpack;
      cbn [negb].
    2:{ right. exists struct_error, 0%nat, w.
        rewrite (set_wav_file_same s0 w Hw0). cbn [firstn].
        rewrite app_nil_r. repeat split; auto. left.
        split; [reflexivity |]. intros Hroom.
        rewrite (header_packs_fits w (Z.of_nat (length bytes)) _ Hch Hwd
                   Hrate Hroom) in Hpack by (rewrite length_app; lia).
        discriminate. }
    destruct o as [| e kept].
    + cbn [Wave.append Wave.with_header data nchannels sampwidth framerate
           headerwritten finalized].
      destruct ((Z.of_nat (length bytes) =? 0)
                || Wave.packs Wave.UINT32_MAX
                     (36 + Z.of_nat (length (data w ++ bytes)))) eqn:Hfit.
      * left. split; [reflexivity |]. split; [reflexivity |].
        apply writable_extend; [exact Hwr |].
        destruct (header_packs_holds w _ Hpack) as (H1 & H2 & H3 & H4 & _).
        refine (conj H1 (conj H2 (conj H3 (conj H4 _)))).
        apply orb_prop in Hfit as [Hempty | Hfit].
        -- apply Z.eqb_eq in Hempty. rewrite length_app, Hsound. cbn [length].
           lia.
        -- unfold Wave.packs, Wave.UINT32_MAX in Hfit.
           apply andb_prop in Hfit as [_ Hfit]. apply Z.leb_le in Hfit.
           exact Hfit.
      * right. exists struct_error, (length bytes),
          (Wave.append (Wave.with_header w) bytes).
        rewrite firstn_all. apply orb_false_elim in Hfit as [_ Hfit].
        repeat split; auto. left. split; [reflexivity |].
        apply no_room. exact Hfit.
    + right. exists e, kept,
        (Wave.append (Wave.with_header w) (firstn kept bytes)).
      repeat split; auto.
Qed.

(** ** One turn of the capture loop *)

Section LoopTurns.

Variables (spf : Z) (c : cycle_env) (later : list cycle_env).
Variables (s : process) (w : wave_write) (f : frame).

Lemma turn_read_fails (e : exn) :
  read c = Fails e -> capture_loop spf (c :: later) s = (s, Raise e).
Proof.
  intros Hread. cbn [capture_loop]. unfold bind at 1. unfold PyAudio.read.
  rewrite Hread. reflexivity.
Qed.

Hypothesis Hread : read c = Gives f.

(** The turn up to [wav_file.writeframes]. *)
Ltac to_write :=
  cbn [capture_loop]; unfold bind at 1; unfold PyAudio.read;
  rewrite Hread; cbn [call]; unfold bind at 1; cbn [ret];
  unfold bind at 1; unfold modify at 1; cbn [ret]; unfold bind at 1.

Lemma turn_write_fails (s1 : process) (e : exn) :
  Wave.writeframes (write c) f (set_captured (captured s ++ [f]) s)
  = (s1, Raise e) ->
  capture_loop spf (c :: later) s = (s1, Raise e).
Proof.
  intros Hwf. to_write. rewrite Hwf. reflexivity.
Qed.

Hypothesis Hw : wav_file s = Some w.
Hypothesis Hwr : writable w.
Hypothesis Hwrite : write c = Written.
Hypothesis Hroom :
  wav_holds (nchannels w) (sampwidth w) (framerate w)
    (Z.of_nat (length (data w ++ f))).

Lemma turn_writes :
  Wave.writeframes (write c) f (set_captured (captured s ++ [f]) s) =
  (set_wav_file (Some (extend w f)) (set_captured (captured s ++ [f]) s),
   Return tt).
Proof.
  rewrite Hwrite. apply writeframes_written; assumption.
Qed.

(** The turn up to [line.set_ydata]. *)
Ltac to_redraw Hseries :=
  to_write; rewrite turn_writes;
  unfold bind at 1; unfold unpack_series; rewrite Hseries; cbn.

Lemma turn_unpack_fails :
  Z.of_nat (length f) <> 2 * spf ->
  capture_loop spf (c :: later) s =
  (set_wav_file (Some (extend w f)) (set_captured (captured s ++ [f]) s),
   Raise struct_error).
Proof.
  intros Hlen. pose proof (to_series_missized spf f Hlen) as Hseries.
  to_redraw Hseries. reflexivity.
Qed.

Hypothesis Hlen : Z.of_nat (length f) = 2 * spf.

Let series : list Z := Transcoder.to_series_spec f.

Lemma turn_redrawn :
  redraw c = Gives tt ->
  capture_loop spf (c :: later) s =
  capture_loop spf later
    (set_frame_count (frame_count s + 1) (turn_shown s w f series)).
Proof.
  intros Hdraw. pose proof (to_series_sized spf f Hlen) as Hseries.
  to_redraw Hseries.
  unfold bind at 1. cbn. unfold bind at 1.
  unfold try_except, Plot.draw_and_flush. rewrite Hdraw. cbn. reflexivity.
Qed.

Lemma turn_window_closed :
  redraw c = Fails TclError -> clock c <> start_time s ->
  capture_loop spf (c :: later) s =
  (set_stdout
     (stdout s ++ [SayStopped;
                   SayFrameRate (frame_count s) (clock c - start_time s)])
     (turn_shown s w f series), Return tt).
Proof.
  intros Hdraw Hclock. pose proof (to_series_sized spf f Hlen) as Hseries.
  to_redraw Hseries.
  unfold bind at 1. cbn. unfold bind at 1.
  unfold try_except, Plot.draw_and_flush. rewrite Hdraw. cbn.
  unfold true_divide, bind. cbn.
  rewrite (proj2 (Z.eqb_neq _ _)) by lia. cbn.
  unfold set_stdout, turn_shown. cbn. rewrite <- app_assoc. reflexivity.
Qed.

Lemma turn_window_closed_at_once :
  redraw c = Fails TclError -> clock c = start_time s ->
  capture_loop spf (c :: later) s =
  (turn_shown s w f series, Raise ZeroDivisionError).
Proof.
  intros Hdraw Hclock. pose proof (to_series_sized spf f Hlen) as Hseries.
  to_redraw Hseries.
  unfold bind at 1. cbn. unfold bind at 1.
  unfold try_except, Plot.draw_and_flush. rewrite Hdraw. cbn.
  unfold true_divide, bind. cbn.
  rewrite (proj2 (Z.eqb_eq _ _)) by lia. reflexivity.
Qed.

Lemma turn_redraw_fails (e : exn) :
  redraw c = Fails e -> e <> TclError ->
  capture_loop spf (c :: later) s = (turn_shown s w f series, Raise e).
Proof.
  intros Hdraw He. pose proof (to_series_sized spf f Hlen) as Hseries.
  to_redraw Hseries.
  unfold bind at 1. cbn. unfold bind at 1.
  unfold try_except, Plot.draw_and_flush. rewrite Hdraw. cbn.
  destruct e; try reflexivity. contradiction.
Qed.

End LoopTurns.

(** Every turn comes out in one of the seven ways, whatever the device,
    the disk and the window answer. *)
Lemma turn_cases (spf : Z) (c : cycle_env) (s : process) (w : wave_write) :
  wav_file s = Some w -> writable w ->
  exists t : turn_end,
    turn_comes_to spf c s w t /\
    forall later : list cycle_env,
      capture_loop spf (c :: later) s =
      match t with
      | GoesRound s' => capture_loop spf later s'
      | Leaves s' r => (s', r)
      end.
Proof.
  intros Hw Hwr.
  destruct (read c) as [f | e] eqn:Hread.
  2:{ eexists. split; [apply ReadRaises; exact Hread |]. intros later.
      apply turn_read_fails. exact Hread. }
  destruct (writeframes_result (write c) w f
              (set_captured (captured s ++ [f]) s) Hw Hwr)
    as [(Hwrite & _ & Hwr')
       | (e & kept & w' & Hwf & Hch & Hwd & Hrate & Hfin & Hdata & He)].
  2:{ eexists. split; [exact (WriteRaised spf c s w f e kept w' Hread Hch Hwd
                                Hrate Hfin Hdata He) |].
      intros later. apply (turn_write_fails spf c later s f Hread). exact Hwf. }
  pose proof (proj2 (proj2 (proj2 (proj2 Hwr')))) as Hroom.
  cbn [extend headerwritten nchannels sampwidth framerate data] in Hroom.
  destruct (Z.eq_dec (Z.of_nat (length f)) (2 * spf)) as [Hlen | Hlen].
  2:{ eexists. split; [exact (UnpackRaises spf c s w f Hread Hwrite Hwr' Hlen) |].
      intros later.
      exact (turn_unpack_fails spf c later s w f Hread Hw Hwr Hwrite Hroom
               Hlen). }
  destruct (redraw c) as [[] | e] eqn:Hdraw.
  - eexists. split.
    + apply Redraws; [| exact Hwr']. repeat split; assumption.
    + intros later.
      exact (turn_redrawn spf c later s w f Hread Hw Hwr Hwrite Hroom Hlen
               Hdraw).
  - destruct (exn_eqb e TclError) eqn:He.
    + assert (e = TclError) as ->
        by (destruct e; try discriminate; reflexivity).
      destruct (Z.eq_dec (clock c) (start_time s)) as [Hclock | Hclock].
      * eexists. split;
          [exact (DividesByZero spf c s w f Hread Hwrite Hwr' Hlen Hdraw
                    Hclock) |].
        intros later.
        exact (turn_window_closed_at_once spf c later s w f Hread Hw Hwr
                 Hwrite Hroom Hlen Hdraw Hclock).
      * eexists. split.
        -- apply WindowClosed; [| exact Hwr']. repeat split; assumption.
        -- intros later.
           exact (turn_window_closed spf c later s w f Hread Hw Hwr Hwrite
                    Hroom Hlen Hdraw Hclock).
    + assert (e <> TclError) as Hne by (intros ->; discriminate).
      eexists. split;
        [exact (RedrawRaises spf c s w f e Hread Hwrite Hwr' Hlen Hdraw Hne) |].
      intros later.
      exact (turn_redraw_fails spf c later s w f Hread Hw Hwr Hwrite Hroom
               Hlen e Hdraw Hne).
Qed.

(** ** The loop as a whole *)

Lemma extend_extend (w : wave_write) (a b : list byte) :
  extend (extend w a) b = extend w (a ++ b).
Proof. unfold extend. cbn. rewrite app_assoc. reflexivity. Qed.

Lemma grown_cons (w : wave_write) (f : frame) (fs : list frame) :
  grown w (f :: fs) = grown (extend w f) fs.
Proof.
  destruct fs as [| g fs]; cbn [grown concat].
  - rewrite app_nil_r. reflexivity.
  - rewrite extend_extend. reflexivity.
Qed.

Lemma grown_data (w : wave_write) (fs : list frame) :
  data (grown w fs) = data w ++ concat fs.
Proof.
  destruct fs; [cbn; rewrite app_nil_r |]; reflexivity.
Qed.

Lemma extend_grown (w : wave_write) (fs : list frame) (f : frame) :
  extend (grown w fs) f = extend w (concat (fs ++ [f])).
Proof.
  rewrite concat_app. cbn [concat]. rewrite app_nil_r.
  destruct fs; [reflexivity |]. cbn [grown]. apply extend_extend.
Qed.

Lemma wav_holds_less (channels width rate bytes fewer : Z) :
  wav_holds channels width rate bytes -> fewer <= bytes ->
  wav_holds channels width rate fewer.
Proof.
  intros (H1 & H2 & H3 & H4 & H5) Hle. repeat split; try assumption. lia.
Qed.

Lemma writable_room (w : wave_write) (bytes : list byte) :
  writable (extend w bytes) ->
  wav_holds (nchannels w) (sampwidth w) (framerate w)
    (Z.of_nat (length (data w ++ bytes))).
Proof. intros (_ & _ & _ & _ & Hroom). exact Hroom. Qed.

(** Whatever the device, the disk and the window do: the file grows by
    the frames read, in order and whole, up to the frame of a write that
    raised, of which it has the bytes that got through; its fields stay as
    set and it is not closed; and the loop ends normally only through the
    handler that prints the frame rate, after a write. *)
Lemma capture_loop_invariant (spf : Z) (turns : list cycle_env) :
  forall (s s' : process) (r : result unit) (w : wave_write),
  wav_file s = Some w -> writable w ->
  capture_loop spf turns s = (s', r) ->
  exists (new rest : list frame) (kept : nat) (w' : wave_write),
    captured s' = captured s ++ new ++ rest /\
    wav_file s' = Some w' /\
    (nchannels w' = nchannels w /\ sampwidth w' = sampwidth w /\
     framerate w' = framerate w /\ finalized w' = false) /\
    data w' = data w ++ concat new ++ firstn kept (concat rest) /\
    map read (firstn (length (new ++ rest)) turns) = map Gives (new ++ rest) /\
    (r = Waiting -> length (new ++ rest) = length turns) /\
    (rest = [] \/
     exists (f : frame) (e : exn),
       rest = [f] /\ r = Raise e /\
       ((e = struct_error /\
         ~ wav_holds (nchannels w) (sampwidth w) (framerate w)
             (Z.of_nat (length (data w ++ concat (new ++ [f]))))) \/
        exists c : cycle_env,
          nth_error turns (length new) = Some c /\
          write c = WriteRaises e kept)) /\
    (fig s' = fig s /\ audio s' = audio s /\ stream s' = stream s) /\
    (r = Return tt ->
     headerwritten w' = true /\
     exists t, stdout s' =
               stdout s ++ [SayStopped; SayFrameRate (frame_count s') t]).
Proof.
  induction turns as [| c later IH]; intros s s' r w Hw Hwr Hrun.
  - cbn in Hrun. injection Hrun as <- <-. exists [], [], 0%nat, w.
    cbn. rewrite !app_nil_r. destruct Hwr as (Hfin & _).
    repeat split; auto; discriminate.
  - destruct (turn_cases spf c s w Hw Hwr) as (t & Ht & Heq).
    rewrite Heq in Hrun. clear Heq.
    destruct Ht as [e Hread
                   | f e kept w' Hread Hch Hwd Hrate Hfin Hdata He
                   | f Hread Hwrite Hwr' Hlen
                   | f (Hread & Hwrite & Hlen & Hdraw) Hwr'
                   | f (Hread & Hwrite & Hlen & Hdraw & Hclock) Hwr'
                   | f Hread Hwrite Hwr' Hlen Hdraw Hclock
                   | f e Hread Hwrite Hwr' Hlen Hdraw He].
    + injection Hrun as <- <-. exists [], [], 0%nat, w.
      cbn. rewrite !app_nil_r. destruct Hwr as (Hfin & _).
      repeat split; auto; discriminate.
    + injection Hrun as <- <-. exists [], [f], kept, w'.
      cbn. rewrite !app_nil_r, Hread.
      repeat split; auto; try discriminate.
      right. exists f, e. split; [reflexivity |]. split; [reflexivity |].
      destruct He as [He | He];
        [left; cbn [app concat]; rewrite app_nil_r; exact He |].
      right. exists c. split; [reflexivity | exact He].
    + injection Hrun as <- <-. exists [f], [], 0%nat, (extend w f).
      cbn. rewrite !app_nil_r, Hread. destruct Hwr as (Hfin & _).
      repeat split; auto; discriminate.
    + apply (IH _ _ _ (extend w f)) in Hrun; [| reflexivity | exact Hwr'].
      destruct Hrun as (new & rest & kept & w' & Hcap & Hfile & Hfields
                        & Hdata & Hreads & Hwait & Hrest & Hhandles & Hout).
      exists (f :: new), rest, kept, w'.
      cbn [captured set_frame_count turn_shown] in Hcap.
      rewrite <- app_assoc in Hcap.
      cbn [data extend] in Hdata. rewrite <- app_assoc in Hdata.
      split; [exact Hcap |]. split; [exact Hfile |].
      split; [exact Hfields |].
      split; [cbn [concat]; rewrite <- app_assoc; exact Hdata |].
      split; [cbn; rewrite Hread, Hreads; reflexivity |].
      split; [intros Hr; cbn; f_equal; exact (Hwait Hr) |].
      split; [| split; [exact Hhandles | exact Hout]].
      destruct Hrest as [-> | (f' & e & -> & -> & He)]; [left; reflexivity |].
      right. exists f', e. split; [reflexivity |]. split; [reflexivity |].
      destruct He as [(He & Hroom) | He]; [left | right; exact He].
      split; [exact He |].
      cbn [extend nchannels sampwidth framerate data] in Hroom.
      rewrite <- app_assoc in Hroom. exact Hroom.
    + injection Hrun as <- <-. exists [f], [], 0%nat, (extend w f).
      cbn. rewrite !app_nil_r, Hread. destruct Hwr as (Hfin & _).
      repeat split; auto; try discriminate.
      eexists. reflexivity.
    + injection Hrun as <- <-. exists [f], [], 0%nat, (extend w f).
      cbn. rewrite !app_nil_r, Hread. destruct Hwr as (Hfin & _).
      repeat split; auto; discriminate.
    + injection Hrun as <- <-. exists [f], [], 0%nat, (extend w f).
      cbn. rewrite !app_nil_r, Hread. destruct Hwr as (Hfin & _).
      repeat split; auto; discriminate.
Qed.

Lemma grown_header (w : wave_write) (fs : list frame) :
  nchannels (grown w fs) = nchannels w /\
  sampwidth (grown w fs) = sampwidth w /\
  framerate (grown w fs) = framerate w /\
  finalized (grown w fs) = finalized w.
Proof. destruct fs; repeat split. Qed.

Lemma last_cons_default {A : Type} (l : list A) (x d : A) :
  last (x :: l) d = last l x.
Proof.
  revert x d. induction l as [| y l IH]; intros x d.
  - reflexivity.
  - change (last (x :: y :: l) d) with (last (y :: l) d).
    rewrite (IH y d), (IH y x). reflexivity.
Qed.

(** As long as the frames fit, the file takes them and the window redraws,
    the loop goes on to the next turn. *)
Lemma capture_loop_drawn_turns (spf : Z) (goods : list cycle_env)
    (fs : list frame) (rest : list cycle_env) :
  Forall2 (drawn_turn spf) goods fs ->
  forall (s : process) (w : wave_write),
  wav_file s = Some w -> writable w ->
  (fs <> [] ->
   wav_holds (nchannels w) (sampwidth w) (framerate w)
     (Z.of_nat (length (data w ++ concat fs)))) ->
  capture_loop spf (goods ++ rest) s =
  capture_loop spf rest (after_turns s w fs) /\
  writable (grown w fs).
Proof.
  induction 1 as [| c0 f0 goods fs (Hread & Hwrite & Hlen & Hdraw) _ IH];
    intros s w Hw Hwr Hroom.
  - split; [| exact Hwr]. cbn [app]. f_equal. unfold after_turns. cbn.
    rewrite Z.add_0_r, app_nil_r, <- Hw. destruct s; reflexivity.
  - assert (Hall : wav_holds (nchannels w) (sampwidth w) (framerate w)
                     (Z.of_nat (length (data w ++ concat (f0 :: fs)))))
      by (apply Hroom; discriminate).
    assert (Hroom0 : wav_holds (nchannels w) (sampwidth w) (framerate w)
                       (Z.of_nat (length (data w ++ f0)))).
    { apply (wav_holds_less _ _ _ _ _ Hall). cbn [concat].
      rewrite !length_app. lia. }
    assert (Hwr' : writable (extend w f0))
      by (apply writable_extend; assumption).
    cbn [app].
    rewrite (turn_redrawn spf c0 _ s w f0 Hread Hw Hwr Hwrite Hroom0 Hlen
               Hdraw).
    destruct (IH (set_frame_count (frame_count s + 1)
                    (turn_shown s w f0 (Transcoder.to_series_spec f0)))
                 (extend w f0) eq_refl Hwr') as (Hgo & Hwr'').
    { intros _. cbn [extend nchannels sampwidth framerate data].
      rewrite <- app_assoc. exact Hall. }
    rewrite Hgo, grown_cons. split; [| exact Hwr''].
    f_equal. unfold after_turns. cbn [stdout fig audio stream wav_file
      line_ydata frame_count start_time captured set_frame_count turn_shown].
    rewrite grown_cons, <- app_assoc.
    cbn [map]. rewrite last_cons_default. cbn [app length].
    replace (frame_count s + 1 + Z.of_nat (length fs))
      with (frame_count s + Z.of_nat (S (length fs))) by lia.
    reflexivity.
Qed.

(** ** The call as a whole *)

Lemma visualize_audio_reaches_loop
    (di spf fmt ch rate : Z) (out : string) (env : run_env) (width : Z)
    (s : process) :
  starts_recording spf ch rate env width ->
  visualize_audio di spf fmt ch rate out env s =
  (capture_loop spf (cycles env) ;; finish env) (at_loop s ch width rate env).
Proof.
  intros (Hopen & Hwave & Hsize & Hch & Hwd & Hrate & Hspf).
  unfold visualize_audio.
  unfold bind at 1. cbn. unfold bind at 1. cbn. unfold bind at 1. cbn.
  unfold bind at 1. unfold try_except, PyAudio.open. rewrite Hopen. cbn.
  unfold bind at 1. unfold Wave.open. rewrite Hwave. cbn.
  unfold bind at 1. unfold Wave.setnchannels, Wave.method. cbn.
  rewrite (proj2 (Z.ltb_ge ch 1)) by lia.
  unfold bind at 1. rewrite Hsize. cbn.
  unfold bind at 1. unfold Wave.setsampwidth, Wave.method. cbn.
  rewrite (proj2 (Z.ltb_ge width 1)), (proj2 (Z.ltb_ge 4 width)) by lia. cbn.
  unfold bind at 1. unfold Wave.setframerate, Wave.method. cbn.
  rewrite (proj2 (Z.leb_gt rate 0)) by lia.
  unfold bind at 1. unfold Plot.plot.
  rewrite (proj2 (Z.ltb_ge spf 0)) by lia. cbn.
  unfold bind at 1. cbn. unfold bind at 1. cbn. reflexivity.
Qed.

Lemma at_loop_writable (s : process) (ch width rate : Z) (env : run_env) :
  1 <= ch -> 1 <= width <= 4 -> 0 < rate ->
  exists w, wav_file (at_loop s ch width rate env) = Some w /\ writable w /\
            w = {| nchannels := ch; sampwidth := width; framerate := rate;
                   headerwritten := false; data := []; finalized := false |}.
Proof.
  intros Hch Hwd Hrate. eexists. split; [reflexivity |]. split; [| reflexivity].
  unfold writable. cbn. repeat split; lia.
Qed.

(** A call whose first turns all redraw goes on with the turns left. *)
Lemma visualize_audio_after_turns
    (di spf fmt ch rate : Z) (out : string) (env : run_env) (width : Z)
    (goods rest : list cycle_env) (fs : list frame) (s : process) :
  starts_recording spf ch rate env width ->
  cycles env = goods ++ rest ->
  Forall2 (drawn_turn spf) goods fs ->
  (fs <> [] -> wav_holds ch width rate (total_bytes fs)) ->
  let w := {| nchannels := ch; sampwidth := width; framerate := rate;
              headerwritten := false; data := []; finalized := false |} in
  visualize_audio di spf fmt ch rate out env s =
  (capture_loop spf rest ;; finish env)
    (after_turns (at_loop s ch width rate env) w fs) /\
  writable (grown w fs).
Proof.
  intros Hstart Hcycles Hgoods Hroom. cbv zeta.
  rewrite (visualize_audio_reaches_loop di spf fmt ch rate out env width s
             Hstart).
  destruct Hstart as (_ & _ & _ & Hch & Hwd & Hrate & _).
  destruct (at_loop_writable s ch width rate env Hch Hwd Hrate)
    as (w & Hw & Hwr & Hw0).
  subst w. unfold bind. rewrite Hcycles.
  destruct (capture_loop_drawn_turns spf goods fs rest Hgoods _ _ Hw Hwr
              Hroom) as (Hgo & Hwr').
  rewrite Hgo. split; [reflexivity | exact Hwr'].
Qed.

(** A call whose window is closed after the frames [fs] comes to its
    [break] having written [fs] and the frame of the closing turn. *)
Lemma visualize_audio_until_closed
    (di spf fmt ch rate : Z) (out : string) (env : run_env) (width : Z)
    (fs : list frame) (c : cycle_env) (f : frame) (s : process) :
  starts_recording spf ch rate env width ->
  closed_after spf env fs c f ->
  wav_holds ch width rate (total_bytes (fs ++ [f])) ->
  visualize_audio di spf fmt ch rate out env s =
  finish env (at_break s ch width rate env fs c f).
Proof.
  intros Hstart (goods & later & Hcycles & Hgoods & Hclosing) Hroom.
  assert (Hsplit : total_bytes (fs ++ [f])
                   = total_bytes fs + Z.of_nat (length f)).
  { unfold total_bytes. rewrite concat_app, length_app. cbn [concat].
    rewrite app_nil_r. lia. }
  destruct (visualize_audio_after_turns di spf fmt ch rate out env width
              goods (c :: later) fs s Hstart Hcycles Hgoods) as (Hrun & Hwr).
  { intros _. apply (wav_holds_less _ _ _ _ _ Hroom). lia. }
  rewrite Hrun. clear Hrun.
  destruct Hclosing as (Hread & Hwrite & Hlen & Hdraw & Hclock).
  unfold bind.
  set (w := {| nchannels := ch; sampwidth := width; framerate := rate;
               headerwritten := false; data := []; finalized := false |})
    in *.
  assert (Hroom' : wav_holds (nchannels (grown w fs)) (sampwidth (grown w fs))
                     (framerate (grown w fs))
                     (Z.of_nat (length (data (grown w fs) ++ f)))).
  { destruct (grown_header w fs) as (-> & -> & -> & _).
    rewrite grown_data, length_app. unfold w.
    cbn [nchannels sampwidth framerate data app].
    apply (wav_holds_less _ _ _ _ _ Hroom). unfold total_bytes in *. lia. }
  rewrite (turn_window_closed spf c later
             (after_turns (at_loop s ch width rate env) w fs)
             (grown w fs) f Hread eq_refl Hwr Hwrite Hroom' Hlen Hdraw
             Hclock).
  f_equal. unfold turn_shown. rewrite extend_grown.
  unfold at_break, set_stdout, after_turns, at_loop, extend, w. cbn.
  rewrite <- app_assoc. reflexivity.
Qed.

Lemma finish_cases (env : run_env) (s : process) (w : wave_write) :
  wav_file s = Some w -> finalized w = false -> headerwritten w = true ->
  finish env s =
  match wav_close env, stream_stop env, stream_close env with
  | Fails e, _, _ => (s, Raise e)
  | Gives _, Fails e, _ => (set_wav_file (Some (finalize w)) s, Raise e)
  | Gives _, Gives _, Fails e =>
      (set_stream Stopped (set_wav_file (Some (finalize w)) s), Raise e)
  | Gives _, Gives _, Gives _ =>
      (set_audio Released
         (set_stream Closed (set_wav_file (Some (finalize w)) s)),
       Return true)
  end.
Proof.
  intros Hw Hfin Hhead.
  unfold finish, Wave.close, Wave.ensure_header_written, PyAudio.stop_stream,
    PyAudio.close, PyAudio.terminate, bind, call, ret, raise, modify.
  rewrite Hw, Hfin, Hhead.
  destruct (wav_close env) as [[] | e1];
    [| rewrite (set_wav_file_same s w Hw); reflexivity].
  cbn.
  destruct (stream_stop env) as [[] | e2]; [| reflexivity].
  destruct (stream_close env) as [[] | e3]; reflexivity.
Qed.

Ltac run_prologue :=
  unfold visualize_audio, bind, try_except, PyAudio.open, Wave.open,
    Wave.setnchannels, Wave.setsampwidth, Wave.setframerate, Wave.method,
    Plot.plot, Plot.subplots, PyAudio.new, call, ret, raise, modify, print;
  cbn.

Ltac stopped_early :=
  right; eexists; eexists; split; [reflexivity |];
  repeat split; try reflexivity; try discriminate.

Lemma visualize_audio_stops_early
    (di spf fmt ch rate : Z) (out : string) (env : run_env) (s : process) :
  (exists width, starts_recording spf ch rate env width) \/
  (exists s' r, visualize_audio di spf fmt ch rate out env s = (s', r) /\
     r <> Return true /\ captured s' = [] /\ recorded s' = [] /\
     (stream_open env = Fails OSError -> r = Return false) /\
     (r = Return false -> stream_open env = Fails OSError) /\
     r <> Waiting).
Proof.
  unfold starts_recording. run_prologue.
  destruct (stream_open env) as [[] | e] eqn:Hopen.
  2:{ destruct e; cbn; stopped_early. }
  cbn.
  destruct (wave_open env) as [[] | e] eqn:Hwave; [| cbn; stopped_early].
  cbn.
  destruct (Z.ltb_spec ch 1) as [Hch | Hch]; [cbn; stopped_early |].
  cbn.
  destruct (sample_size env) as [width | e] eqn:Hsize; [| cbn; stopped_early].
  cbn.
  destruct (Z.ltb_spec width 1) as [Hw1 | Hw1]; [cbn; stopped_early |].
  destruct (Z.ltb_spec 4 width) as [Hw4 | Hw4]; [cbn; stopped_early |].
  cbn.
  destruct (Z.leb_spec rate 0) as [Hrate | Hrate]; [cbn; stopped_early |].
  cbn.
  destruct (Z.ltb_spec spf 0) as [Hspf | Hspf]; [cbn; stopped_early |].
  left. exists width. repeat split; try reflexivity; lia.
Qed.

Lemma visualize_audio_open_refused
    (di spf fmt ch rate : Z) (out : string) (env : run_env) (s : process) :
  stream_open env = Fails OSError ->
  visualize_audio di spf fmt ch rate out env s =
  ({| stdout := stdout s ++ [SayInvalidIndex]; fig := Open; audio := Open;
      stream := NoStream; wav_file := None; line_ydata := None;
      frame_count := 0; start_time := 0; captured := [] |}, Return false).
Proof.
  intros Hopen. run_prologue. rewrite Hopen. reflexivity.
Qed.

Lemma finish_keeps (env : run_env) (s s' : process) (r : result bool)
    (w : wave_write) :
  wav_file s = Some w -> finalized w = false -> headerwritten w = true ->
  finish env s = (s', r) ->
  captured s' = captured s /\ stdout s' = stdout s /\ fig s' = fig s /\
  (wav_file s' = Some w \/ wav_file s' = Some (finalize w)) /\
  (r = Return true -> wav_file s' = Some (finalize w)) /\
  r <> Return false /\ r <> Waiting.
Proof.
  intros Hw Hfin Hhead Hrun.
  rewrite (finish_cases env s w Hw Hfin Hhead) in Hrun.
  destruct (wav_close env) as [[] | e1]; [| injection Hrun as <- <-].
  1: destruct (stream_stop env) as [[] | e2]; [| injection Hrun as <- <-].
  1: destruct (stream_close env) as [[] | e3]; injection Hrun as <- <-.
  all: cbn; repeat split; auto; discriminate.
Qed.

(** ** What the file holds *)



(** The other way a write raises: a WAV header has 16 bits for the number
    of channels, and with more the first [writeframes] raises
    [struct.error] before any byte of the frame is in the file. *)
Example header_cannot_carry_the_channels :
  exists s',
    visualize_audio 0 4 8 70000 8000 "output.wav"
      (Samples.healthy [Samples.drawn Samples.f1]) startup
    = (s', Raise struct_error) /\
    captured s' = [Samples.f1] /\ recorded s' = [].
Proof.
  eexists. split; [vm_compute; reflexivity |]. split; reflexivity.
Qed.

(** ** Ending a call: the closed window, the refused device, the teardown *)

Lemma drawn_frames_length (spf : Z) (goods : list cycle_env)
    (fs : list frame) :
  Forall2 (drawn_turn spf) goods fs ->
  Z.of_nat (length (concat fs)) = Z.of_nat (length fs) * (2 * spf).
Proof.
  induction 1 as [| c f goods fs (_ & _ & Hlen & _) _ IH].
  - reflexivity.
  - cbn [concat length]. rewrite length_app. lia.
Qed.

(** C3, as the code has it.  When the window is closed after K redraws
    (the redraw of turn K+1 raises [TclError]), the file has taken every
    frame, a WAV header can carry the fields and the length of the K+1
    frames, and the teardown succeeds, the call returns [True], prints the
    frame rate computed from a frame count of K, and leaves a finalized
    file whose header carries the channel count, sample size and rate it
    was given and whose body is the K+1 frames read, the frame of the
    closing turn included; for K = 0 that is the header and one frame. *)
Theorem window_closed_after_redraws
    (di spf fmt ch rate : Z) (out : string) (env : run_env) (width : Z)
    (fs : list frame) (c : cycle_env) (f : frame) (s : process) :
  starts_recording spf ch rate env width ->
  closed_after spf env fs c f ->
  wav_holds ch width rate (total_bytes (fs ++ [f])) ->
  closes_cleanly env ->
  let K := Z.of_nat (length fs) in
  let w := {| nchannels := ch; sampwidth := width; framerate := rate;
              headerwritten := true; data := concat (fs ++ [f]);
              finalized := true |} in
  visualize_audio di spf fmt ch rate out env s =
  ({| stdout := stdout s ++
                [SayStarted; SayStopped;
                 SayFrameRate K (clock c - clock_start env)];
      fig := Open; audio := Released; stream := Closed;
      wav_file := Some w;
      line_ydata := Some (Transcoder.to_series_spec f);
      frame_count := K;
      start_time := clock_start env;
      captured := fs ++ [f] |}, Return true) /\
  file_size w = HEADER_SIZE + (K + 1) * (2 * spf).
Proof.
  intros Hstart Hclosed Hroom (Hwav & Hstop & Hclose). cbv zeta. split.
  - rewrite (visualize_audio_until_closed di spf fmt ch rate out env width
               fs c f s Hstart Hclosed Hroom).
    erewrite (finish_cases env (at_break s ch width rate env fs c f))
      by reflexivity.
    rewrite Hwav, Hstop, Hclose. reflexivity.
  - destruct Hclosed as (goods & later & _ & Hgoods & (_ & _ & Hlen & _)).
    unfold file_size. cbn [data headerwritten]. rewrite concat_app, length_app.
    cbn [concat]. rewrite app_nil_r.
    pose proof (drawn_frames_length spf goods fs Hgoods). lia.
Qed.

Lemma window_closed_after_redraws_witness :
  visualize_audio 0 4 8 1 8000 "output.wav" Samples.three_frames startup =
  ({| stdout := [SayStarted; SayStopped; SayFrameRate 2 3];
      fig := Open; audio := Released; stream := Closed;
      wav_file :=
        Some {| nchannels := 1; sampwidth := 2; framerate := 8000;
                headerwritten := true;
                data := Samples.f1 ++ Samples.f2 ++ Samples.f3;
                finalized := true |};
      line_ydata := Some [129; 130; 131; 132];
      frame_count := 2;
      start_time := 100;
      captured := [Samples.f1; Samples.f2; Samples.f3] |}, Return true) /\
  file_size {| nchannels := 1; sampwidth := 2; framerate := 8000;
               headerwritten := true;
               data := Samples.f1 ++ Samples.f2 ++ Samples.f3;
               finalized := true |} = 44 + 3 * 8.
Proof.
  refine (window_closed_after_redraws 0 4 8 1 8000 "output.wav"
            Samples.three_frames 2 [Samples.f1; Samples.f2]
            (Samples.closing Samples.f3 103) Samples.f3 startup _ _ _ _).
  - unfold starts_recording. cbn. repeat split; lia.
  - exists [Samples.drawn Samples.f1; Samples.drawn Samples.f2], [].
    split; [reflexivity |]. split.
    + repeat constructor.
    + unfold closing_turn. cbn. repeat split. lia.
  - unfold wav_holds, total_bytes. cbn. lia.
  - repeat split.
Defined.

(** C3, as the claim has it, fails for K = 0: the window is closed before
    any redraw, the call returns [True] with a frame count of 0, and the
    finalized file is not header-only, it holds the frame read in the one
    turn. *)
Lemma closing_before_any_redraw_records_a_frame :
  closed_after 4 Samples.closed_at_once [] (Samples.closing Samples.f1 101)
    Samples.f1 /\
  exists s' w,
    visualize_audio 0 4 8 1 8000 "output.wav" Samples.closed_at_once startup
    = (s', Return true) /\
    frame_count s' = 0 /\
    wav_file s' = Some w /\ finalized w = true /\
    data w = Samples.f1 /\ data w <> [] /\ file_size w <> HEADER_SIZE.
Proof.
  split.
  - exists [], []. split; [reflexivity |]. split; [constructor |].
    unfold closing_turn. cbn. repeat split. lia.
  - eexists. eexists. split; [vm_compute; reflexivity |].
    cbn. repeat split; discriminate.
Qed.

(** C6.  What the code does when PyAudio refuses to open the stream with
    [OSError] (as for a device index it does not have): the call prints the
    message and returns [False]; no stream and no file are open, but the
    PyAudio instance has not been terminated and the figure has not been
    closed. *)
Theorem refused_device_leaves_audio_and_figure_open
    (di spf fmt ch rate : Z) (out : string) (env : run_env) (s : process) :
  stream_open env = Fails OSError ->
  exists s',
    visualize_audio di spf fmt ch rate out env s = (s', Return false) /\
    stdout s' = stdout s ++ [SayInvalidIndex] /\
    stream s' = NoStream /\ wav_file s' = None /\
    audio s' = Open /\ fig s' = Open.
Proof.
  intros Hopen. eexists. split.
  - apply visualize_audio_open_refused. exact Hopen.
  - repeat split.
Qed.

Lemma refused_device_leaves_audio_and_figure_open_witness :
  exists s',
    visualize_audio 7 2048 8 1 44100 "output.wav" Samples.refused startup
    = (s', Return false) /\
    stdout s' = stdout startup ++ [SayInvalidIndex] /\
    stream s' = NoStream /\ wav_file s' = None /\
    audio s' = Open /\ fig s' = Open.
Proof.
  exact (refused_device_leaves_audio_and_figure_open 7 2048 8 1 44100
           "output.wav" Samples.refused startup eq_refl).
Defined.

(** C7, as the code has it.  At its [break] (the file has taken every
    frame and a WAV header can carry their length) the call closes the file,
    then stops the stream, closes it, and terminates the PyAudio instance,
    in that order and with nothing guarding one call from the failure of
    another: when all three calls that can fail succeed, file, stream and
    instance are released and the call returns [True]; when one raises,
    the exception leaves the call and nothing after it has been released.
    No path closes the figure. *)
Theorem teardown_runs_in_sequence
    (di spf fmt ch rate : Z) (out : string) (env : run_env) (width : Z)
    (fs : list frame) (c : cycle_env) (f : frame) (s : process) :
  starts_recording spf ch rate env width ->
  closed_after spf env fs c f ->
  wav_holds ch width rate (total_bytes (fs ++ [f])) ->
  let broke := at_break s ch width rate env fs c f in
  let closed := Some {| nchannels := ch; sampwidth := width;
                        framerate := rate; headerwritten := true;
                        data := concat (fs ++ [f]); finalized := true |} in
  let final := visualize_audio di spf fmt ch rate out env s in
  final =
    match wav_close env, stream_stop env, stream_close env with
    | Fails e, _, _ => (broke, Raise e)
    | Gives _, Fails e, _ => (set_wav_file closed broke, Raise e)
    | Gives _, Gives _, Fails e =>
        (set_stream Stopped (set_wav_file closed broke), Raise e)
    | Gives _, Gives _, Gives _ =>
        (set_audio Released (set_stream Closed (set_wav_file closed broke)),
         Return true)
    end /\
  stream broke = Active /\ audio broke = Open /\
  fig (fst final) = Open.
Proof.
  intros Hstart Hclosed Hroom. cbv zeta.
  rewrite (visualize_audio_until_closed di spf fmt ch rate out env width
             fs c f s Hstart Hclosed Hroom).
  erewrite (finish_cases env (at_break s ch width rate env fs c f))
    by reflexivity.
  split; [reflexivity |]. split; [reflexivity |]. split; [reflexivity |].
  destruct (wav_close env) as [[] | e1]; [| reflexivity].
  destruct (stream_stop env) as [[] | e2]; [| reflexivity].
  destruct (stream_close env) as [[] | e3]; reflexivity.
Qed.

Lemma teardown_runs_in_sequence_witness :
  let broke := at_break startup 1 2 8000 Samples.disk_full []
                 (Samples.closing Samples.f1 101) Samples.f1 in
  let final := visualize_audio 0 4 8 1 8000 "output.wav" Samples.disk_full
                 startup in
  final = (broke, Raise OSError) /\
  stream broke = Active /\ audio broke = Open /\ fig (fst final) = Open.
Proof.
  refine (teardown_runs_in_sequence 0 4 8 1 8000 "output.wav"
            Samples.disk_full 2 [] (Samples.closing Samples.f1 101)
            Samples.f1 startup _ _ _).
  - unfold starts_recording. cbn. repeat split; lia.
  - exists [], []. split; [reflexivity |]. split; [constructor |].
    unfold closing_turn. cbn. repeat split. lia.
  - unfold wav_holds, total_bytes. cbn. lia.
Defined.

(** C7, as the claim has it, fails: the window has been closed, closing
    the file raises, and the call ends with the stream still active, the
    PyAudio instance not terminated and the figure open: neither of the
    later closes was attempted. *)
Lemma failed_file_close_skips_the_other_closes :
  exists s',
    visualize_audio 0 4 8 1 8000 "output.wav" Samples.disk_full startup
    = (s', Raise OSError) /\
    stream s' = Active /\ audio s' = Open /\ fig s' = Open.
Proof.
  eexists. split; [vm_compute; reflexivity |]. repeat split.
Qed.

Lemma visualize_audio_read_fails
    (di spf fmt ch rate : Z) (out : string) (env : run_env) (width : Z)
    (goods : list cycle_env) (fs : list frame) (c : cycle_env)
    (later : list cycle_env) (e : exn) (s : process) :
  starts_recording spf ch rate env width ->
  cycles env = goods ++ c :: later ->
  Forall2 (drawn_turn spf) goods fs ->
  (fs <> [] -> wav_holds ch width rate (total_bytes fs)) ->
  read c = Fails e ->
  visualize_audio di spf fmt ch rate out env s =
  (after_turns (at_loop s ch width rate env)
     {| nchannels := ch; sampwidth := width; framerate := rate;
        headerwritten := false; data := []; finalized := false |} fs,
   Raise e).
Proof.
  intros Hstart Hcycles Hgoods Hroom Hread.
  destruct (visualize_audio_after_turns di spf fmt ch rate out env width
              goods (c :: later) fs s Hstart Hcycles Hgoods Hroom)
    as (Hrun & _).
  rewrite Hrun. unfold bind.
  rewrite (turn_read_fails spf c later _ e Hread). reflexivity.
Qed.

(** C4.  What the code does when [stream.read] raises in turn K, after
    K-1 turns that redrew (their frames taken by the file, their length
    one a WAV header can carry): the exception leaves [visualize_audio] and the
    loop of the script, so the process ends with it; the K-1 frames read
    have been written and the frame of the failing read has not, but the
    file has not been finalized, and the stream and the PyAudio instance
    are still open. *)
Theorem read_failure_ends_the_process
    (args : arguments) (di : Z) (env : run_env) (width : Z)
    (goods : list cycle_env) (fs : list frame) (c : cycle_env)
    (later : list cycle_env) (e : exn)
    (more : list run_env) (rounds : list prompt_round) (s : process) :
  starts_recording (samples_per_frame args) (num_channels args)
    (sample_rate args) env width ->
  cycles env = goods ++ c :: later ->
  Forall2 (drawn_turn (samples_per_frame args)) goods fs ->
  (fs <> [] ->
   wav_holds (num_channels args) width (sample_rate args) (total_bytes fs)) ->
  read c = Fails e ->
  exists s',
    visualize_audio di (samples_per_frame args) (audio_format args)
      (num_channels args) (sample_rate args) (output_file args) env s
    = (s', Raise e) /\
    driver_loop args di (env :: more) rounds s = (s', Raise e) /\
    wav_file s' = Some {| nchannels := num_channels args; sampwidth := width;
                          framerate := sample_rate args;
                          headerwritten := match fs with
                                           | [] => false
                                           | _ :: _ => true
                                           end;
                          data := concat fs; finalized := false |} /\
    captured s' = fs /\
    stream s' = Active /\ audio s' = Open.
Proof.
  intros Hstart Hcycles Hgoods Hroom Hread.
  pose proof (visualize_audio_read_fails di (samples_per_frame args)
                (audio_format args) (num_channels args) (sample_rate args)
                (output_file args) env width goods fs c later e s
                Hstart Hcycles Hgoods Hroom Hread) as Hrun.
  eexists. split; [exact Hrun |]. split.
  - cbn [driver_loop]. unfold bind at 1. rewrite Hrun. reflexivity.
  - split; [destruct fs; reflexivity |]. repeat split.
Qed.

Lemma read_failure_ends_the_process_witness :
  exists s',
    visualize_audio 0 4 8 1 8000 "output.wav" Samples.lost_device startup
    = (s', Raise OSError) /\
    driver_loop
      {| input_device := Some 0; samples_per_frame := 4; audio_format := 8;
         num_channels := 1; sample_rate := 8000;
         output_file := "output.wav" |}
      0 [Samples.lost_device] [] startup = (s', Raise OSError) /\
    wav_file s' = Some {| nchannels := 1; sampwidth := 2; framerate := 8000;
                          headerwritten := true;
                          data := concat [Samples.f1]; finalized := false |} /\
    captured s' = [Samples.f1] /\
    stream s' = Active /\ audio s' = Open.
Proof.
  refine (read_failure_ends_the_process
            {| input_device := Some 0; samples_per_frame := 4;
               audio_format := 8; num_channels := 1; sample_rate := 8000;
               output_file := "output.wav" |}
            0 Samples.lost_device 2 [Samples.drawn Samples.f1] [Samples.f1]
            Samples.unplugged [] OSError [] [] startup _ _ _ _ _).
  - unfold starts_recording. cbn. repeat split; lia.
  - reflexivity.
  - repeat constructor.
  - intros _. unfold wav_holds, total_bytes. cbn. lia.
  - reflexivity.
Defined.

(** ** Frame sizes and the unpack of line 112 *)

(** C9, as the code has it.  A read gives samples_per_frame x channels x
    sample-size bytes, and the unpack of line 112 wants 2 x
    samples_per_frame: with a positive samples_per_frame it raises exactly
    when channels x sample size is not 2.  In a call with such a
    configuration the first turn raises [struct.error], after its frame
    has been written to the file (the file takes it, and a WAV header can
    carry the fields and the length) and before anything is drawn. *)
Theorem unpack_needs_two_bytes_per_sample_frame
    (di spf fmt ch rate : Z) (out : string) (env : run_env) (width : Z)
    (c : cycle_env) (later : list cycle_env) (f : frame) (s : process) :
  starts_recording spf ch rate env width ->
  0 < spf ->
  cycles env = c :: later ->
  read c = Gives f ->
  Z.of_nat (length f) = spf * ch * width ->
  (Transcoder.to_series spf f = None <-> ch * width <> 2) /\
  (ch * width <> 2 ->
   write c = Written -> wav_holds ch width rate (Z.of_nat (length f)) ->
   exists s',
     visualize_audio di spf fmt ch rate out env s = (s', Raise struct_error) /\
     recorded s' = f /\ captured s' = [f] /\
     line_ydata s' = None /\ frame_count s' = 0).
Proof.
  intros Hstart Hspf Hcycles Hread Hlen.
  assert (Hiff : Transcoder.to_series spf f = None <-> ch * width <> 2).
  { destruct (Z.eq_dec (Z.of_nat (length f)) (2 * spf)) as [H2 | H2].
    - rewrite (to_series_sized spf f H2).
      split; [discriminate | intros Hne; exfalso; apply Hne; nia].
    - rewrite (to_series_missized spf f H2).
      split; [intros _ Heq | reflexivity]. apply H2. rewrite Hlen. nia. }
  split; [exact Hiff |]. intros Hne Hwrite Hroom.
  assert (Hsize : Z.of_nat (length f) <> 2 * spf) by (rewrite Hlen; nia).
  rewrite (visualize_audio_reaches_loop di spf fmt ch rate out env width s
             Hstart).
  destruct Hstart as (_ & _ & _ & Hch & Hwd & Hrate & _).
  destruct (at_loop_writable s ch width rate env Hch Hwd Hrate)
    as (w & Hw & Hwr & Hw0).
  unfold bind. rewrite Hcycles.
  rewrite (turn_unpack_fails spf c later _ w f Hread Hw Hwr Hwrite
             ltac:(subst w; exact Hroom) Hsize).
  eexists. split; [reflexivity |]. subst w. repeat split.
Qed.

Lemma unpack_needs_two_bytes_per_sample_frame_witness :
  (Transcoder.to_series 4 (Samples.f1 ++ Samples.f2) = None <-> 2 * 2 <> 2) /\
  exists s',
    visualize_audio 0 4 8 2 8000 "output.wav" Samples.stereo_16bit startup
    = (s', Raise struct_error) /\
    recorded s' = Samples.f1 ++ Samples.f2 /\
    captured s' = [Samples.f1 ++ Samples.f2] /\
    line_ydata s' = None /\ frame_count s' = 0.
Proof.
  assert (Hstart : starts_recording 4 2 8000 Samples.stereo_16bit 2)
    by (unfold starts_recording; cbn; repeat split; lia).
  destruct (unpack_needs_two_bytes_per_sample_frame 0 4 8 2 8000 "output.wav"
              Samples.stereo_16bit 2
              (Samples.drawn (Samples.f1 ++ Samples.f2)) []
              (Samples.f1 ++ Samples.f2) startup Hstart
              ltac:(lia) eq_refl eq_refl eq_refl) as [Hiff Hrun].
  split; [exact Hiff |].
  apply Hrun; [lia | reflexivity | unfold wav_holds; cbn; lia].
Defined.

(** C9, as the claim has it, fails: with two channels (not one) of 1-byte
    samples (not two) a frame of four sample frames has the 8 bytes the
    unpack wants, the first turn produces its series, and the call
    returns [True]. *)
Lemma stereo_8bit_frames_pass_the_unpack :
  2 <> 1 /\ 1 <> 2 /\
  sample_size Samples.stereo_8bit = Gives 1 /\
  Z.of_nat (length Samples.f1) = 4 * 2 * 1 /\
  Transcoder.to_series 4 Samples.f1 = Some [128; 255; 0; 127] /\
  exists s',
    visualize_audio 0 4 16 2 8000 "output.wav" Samples.stereo_8bit startup
    = (s', Return true) /\
    line_ydata s' = Some [128; 255; 0; 127].
Proof.
  repeat (split; [first [reflexivity | discriminate] |]).
  eexists. split; [vm_compute; reflexivity | reflexivity].
Qed.

(** ** Device selection *)

Lemma validate_device_spec (i : Z) (h : host_api) :
  validate_device i h = true <-> 0 <= i < deviceCount h.
Proof.
  unfold validate_device.
  destruct (Z.ltb_spec i 0); destruct (Z.geb_spec i (deviceCount h)); cbn;
    split; intros; try discriminate; try reflexivity; lia.
Qed.

Lemma set_stdout_same (s : process) : set_stdout (stdout s) s = s.
Proof. destruct s; reflexivity. Qed.

Lemma list_devices_from_prints (devices : list device_info) :
  forall (i : Z) (s : process),
  list_devices_from i devices s =
  (set_stdout (stdout s ++ device_lines i devices) s, Return tt).
Proof.
  induction devices as [| d rest IH]; intros i s.
  - cbn. rewrite app_nil_r, set_stdout_same. reflexivity.
  - cbn [list_devices_from device_lines]. unfold bind at 1.
    destruct (maxInputChannels d >? 0).
    + unfold print, modify. rewrite IH. cbn. rewrite <- app_assoc.
      reflexivity.
    + unfold ret. rewrite IH. reflexivity.
Qed.

Section OneRound.

Variables (r : prompt_round) (later : list prompt_round) (s : process).

Let prompted : list message :=
  stdout s ++ device_lines 0 (listed r) ++ [SayPrompt].

Ltac to_answer H :=
  cbn [select_device]; unfold bind at 1; unfold list_devices;
  rewrite list_devices_from_prints; unfold bind at 1;
  unfold try_except, bind, print, modify, call; rewrite H; cbn.

Lemma round_picks (i : Z) :
  picks r i ->
  select_device (r :: later) s = (set_stdout prompted s, Return (i, later)).
Proof.
  intros (Hanswer & Hvalid). to_answer Hanswer. rewrite Hvalid. cbn.
  unfold prompted. rewrite <- app_assoc. reflexivity.
Qed.

Lemma round_invalid_index (i : Z) :
  answer r = Gives i -> validate_device i (checked r) = false ->
  select_device (r :: later) s =
  select_device later (set_stdout (prompted ++ [SayInvalidIndex]) s).
Proof.
  intros Hanswer Hvalid. to_answer Hanswer. rewrite Hvalid. cbn.
  unfold prompted. rewrite <- !app_assoc. reflexivity.
Qed.

Lemma round_not_an_integer :
  answer r = Fails ValueError ->
  select_device (r :: later) s =
  select_device later (set_stdout (prompted ++ [SayInvalidInput]) s).
Proof.
  intros Hanswer. to_answer Hanswer.
  unfold prompted. rewrite <- !app_assoc. reflexivity.
Qed.

Lemma round_input_raises (e : exn) :
  answer r = Fails e -> e <> ValueError ->
  select_device (r :: later) s = (set_stdout prompted s, Raise e).
Proof.
  intros Hanswer He. to_answer Hanswer.
  destruct e; try contradiction;
    unfold prompted; rewrite <- !app_assoc; reflexivity.
Qed.

End OneRound.

(** An index [select_device] returns was typed in one of its rounds and
    passed [validate_device] there. *)
Lemma select_device_sound (rounds : list prompt_round) :
  forall (s s' : process) (i : Z) (rest : list prompt_round),
  select_device rounds s = (s', Return (i, rest)) ->
  exists (used : list prompt_round) (r : prompt_round),
    rounds = used ++ r :: rest /\ picks r i.
Proof.
  induction rounds as [| r later IH]; intros s s' i rest Hrun.
  - discriminate.
  - destruct (answer r) as [j | e] eqn:Hanswer.
    + destruct (validate_device j (checked r)) eqn:Hvalid.
      * rewrite (round_picks r later s j (conj Hanswer Hvalid)) in Hrun.
        injection Hrun as _ <- <-. exists [], r. split; [reflexivity |].
        split; assumption.
      * rewrite (round_invalid_index r later s j Hanswer Hvalid) in Hrun.
        apply IH in Hrun as (used & r' & -> & Hpick).
        exists (r :: used), r'. split; [reflexivity | exact Hpick].
    + destruct (exn_eqb e ValueError) eqn:He.
      * assert (e = ValueError) as ->
          by (destruct e; try discriminate; reflexivity).
        rewrite (round_not_an_integer r later s Hanswer) in Hrun.
        apply IH in Hrun as (used & r' & -> & Hpick).
        exists (r :: used), r'. split; [reflexivity | exact Hpick].
      * assert (e <> ValueError) as Hne by (intros ->; discriminate).
        rewrite (round_input_raises r later s e Hanswer Hne) in Hrun.
        discriminate.
Qed.

Lemma select_device_raises (rounds : list prompt_round) :
  forall (s s' : process) (e : exn),
  select_device rounds s = (s', Raise e) -> e <> ValueError.
Proof.
  induction rounds as [| r later IH]; intros s s' e Hrun.
  - discriminate.
  - destruct (answer r) as [j | e0] eqn:Hanswer.
    + destruct (validate_device j (checked r)) eqn:Hvalid.
      * rewrite (round_picks r later s j (conj Hanswer Hvalid)) in Hrun.
        discriminate.
      * rewrite (round_invalid_index r later s j Hanswer Hvalid) in Hrun.
        exact (IH _ _ _ Hrun).
    + destruct (exn_eqb e0 ValueError) eqn:He.
      * assert (e0 = ValueError) as ->
          by (destruct e0; try discriminate; reflexivity).
        rewrite (round_not_an_integer r later s Hanswer) in Hrun.
        exact (IH _ _ _ Hrun).
      * assert (e0 <> ValueError) as Hne by (intros ->; discriminate).
        rewrite (round_input_raises r later s e0 Hanswer Hne) in Hrun.
        injection Hrun as _ <-. exact Hne.
Qed.

(** C10.  Every index [select_device] returns is an integer the user
    typed in one of the rounds and satisfies 0 <= index < deviceCount on
    the instance it was validated on; an input that is not an integer is
    answered by the message and the next round; and [ValueError] never
    leaves [select_device]. *)
Theorem select_device_returns_validated_index :
  (forall (rounds : list prompt_round) (s s' : process) (i : Z)
          (rest : list prompt_round),
     select_device rounds s = (s', Return (i, rest)) ->
     exists (used : list prompt_round) (r : prompt_round),
       rounds = used ++ r :: rest /\
       answer r = Gives i /\
       validate_device i (checked r) = true /\
       0 <= i < deviceCount (checked r)) /\
  (forall (r : prompt_round) (later : list prompt_round) (s : process),
     answer r = Fails ValueError ->
     select_device (r :: later) s =
     select_device later
       (set_stdout (stdout s ++ device_lines 0 (listed r)
                    ++ [SayPrompt; SayInvalidInput]) s)) /\
  (forall (rounds : list prompt_round) (s s' : process) (e : exn),
     select_device rounds s = (s', Raise e) -> e <> ValueError).
Proof.
  split; [| split].
  - intros rounds s s' i rest Hrun.
    destruct (select_device_sound rounds s s' i rest Hrun)
      as (used & r & Hrounds & Hanswer & Hvalid).
    exists used, r. repeat split; try assumption;
      apply validate_device_spec in Hvalid; lia.
  - intros r later s Hanswer.
    rewrite (round_not_an_integer r later s Hanswer).
    rewrite <- !app_assoc. reflexivity.
  - exact select_device_raises.
Qed.

Lemma select_device_returns_validated_index_witness :
  exists (used : list prompt_round) (r : prompt_round),
    Samples.three_answers = used ++ r :: [] /\
    answer r = Gives 1 /\
    validate_device 1 (checked r) = true /\
    0 <= 1 < deviceCount (checked r).
Proof.
  exact (proj1 select_device_returns_validated_index
           Samples.three_answers startup _ 1 [] eq_refl).
Defined.

(** ** The loop of the script *)








(** * Further properties of the code *)

(** ** What the plotted series keeps of a frame *)

Lemma nth_error_stride2 {A : Type} (l : list A) :
  forall k : nat, nth_error (Transcoder.stride2 l) k = nth_error l (2 * k).
Proof.
  revert l. fix IH 1. intros [| x [| y rest]] k.
  - destruct k; reflexivity.
  - destruct k as [| k]; [reflexivity |].
    replace (2 * S k)%nat with (S (S (2 * k))) by lia.
    destruct k; reflexivity.
  - destruct k as [| k]; [reflexivity |].
    replace (2 * S k)%nat with (S (S (2 * k))) by lia.
    cbn [Transcoder.stride2 nth_error]. apply IH.
Qed.

Lemma biased_byte (b : byte) :
  Transcoder.signed8 b + Transcoder.BIAS = (byte_value b + 128) mod 256 /\
  Transcoder.signed8 b + Transcoder.BIAS = Z.lxor (byte_value b) 128.
Proof.
  destruct b; split; reflexivity.
Qed.

Lemma byte_value_inj (a b : byte) : byte_value a = byte_value b -> a = b.
Proof.
  unfold byte_value. intros H. apply N2Z.inj in H.
  pose proof (Byte.of_to_N a) as Ha. rewrite H, Byte.of_to_N in Ha.
  congruence.
Qed.

Lemma biased_byte_inj (a b : byte) :
  Transcoder.signed8 a + Transcoder.BIAS =
  Transcoder.signed8 b + Transcoder.BIAS -> a = b.
Proof.
  intros H. apply byte_value_inj.
  pose proof (byte_value_range a). pose proof (byte_value_range b).
  unfold Transcoder.signed8 in H.
  destruct (Z.ltb_spec (byte_value a) 128);
    destruct (Z.ltb_spec (byte_value b) 128); lia.
Qed.

(** X1.  In a series that lines 112-113 produce, value number k comes from
    byte number 2k of the frame alone: it is that byte plus 128 modulo 256,
    which is the byte with its top bit flipped.  The bytes at odd offsets
    (the high bytes of 16-bit samples) play no part. *)
Theorem series_value_from_even_byte (spf : Z) (f : frame) (series : list Z)
    (k : nat) (v : Z) :
  Transcoder.to_series spf f = Some series ->
  nth_error series k = Some v ->
  exists b : byte,
    nth_error f (2 * k) = Some b /\
    v = (byte_value b + 128) mod 256 /\
    v = Z.lxor (byte_value b) 128.
Proof.
  intros Hseries Hv.
  destruct (Z.eq_dec (Z.of_nat (length f)) (2 * spf)) as [Hlen | Hlen].
  2:{ rewrite (to_series_missized spf f Hlen) in Hseries. discriminate. }
  rewrite (to_series_sized spf f Hlen) in Hseries. injection Hseries as <-.
  unfold Transcoder.to_series_spec in Hv. rewrite nth_error_map in Hv.
  rewrite nth_error_stride2 in Hv.
  destruct (nth_error f (2 * k)) as [b |]; [| discriminate].
  injection Hv as <-. exists b. split; [reflexivity |]. apply biased_byte.
Qed.

Lemma series_value_from_even_byte_witness :
  exists b : byte,
    nth_error Samples.f1 (2 * 2) = Some b /\
    0 = (byte_value b + 128) mod 256 /\
    0 = Z.lxor (byte_value b) 128.
Proof.
  exact (series_value_from_even_byte 4 Samples.f1 [128; 255; 0; 127] 2 0
           eq_refl eq_refl).
Defined.

(** X2.  Two frames of the expected size give the same series exactly
    when they agree on every byte at an even offset: the series loses the
    odd-offset bytes and nothing else. *)
Theorem series_equal_iff_even_bytes_equal (spf : Z) (f g : frame) :
  Z.of_nat (length f) = 2 * spf ->
  Z.of_nat (length g) = 2 * spf ->
  (Transcoder.to_series spf f = Transcoder.to_series spf g <->
   Transcoder.stride2 f = Transcoder.stride2 g).
Proof.
  intros Hf Hg.
  rewrite (to_series_sized spf f Hf), (to_series_sized spf g Hg).
  unfold Transcoder.to_series_spec. split.
  - intros H. injection H as H.
    revert H. generalize (Transcoder.stride2 g).
    induction (Transcoder.stride2 f) as [| a l IH]; intros [| b m] H;
      try discriminate; [reflexivity |].
    cbn [map] in H. injection H as Hab Hlm.
    f_equal; [apply biased_byte_inj; exact Hab | apply IH; exact Hlm].
  - intros ->. reflexivity.
Qed.

Lemma series_equal_iff_even_bytes_equal_witness :
  Transcoder.to_series 2 [x01; x02; x03; x04] =
  Transcoder.to_series 2 [x01; xff; x03; x00] <->
  Transcoder.stride2 [x01; x02; x03; x04] =
  Transcoder.stride2 [x01; xff; x03; x00].
Proof.
  exact (series_equal_iff_even_bytes_equal 2 [x01; x02; x03; x04]
           [x01; xff; x03; x00] eq_refl eq_refl).
Defined.

(** ** How a call can end *)

Lemma fits_plot_series (spf : Z) (f : frame) (series : list Z) :
  Transcoder.to_series spf f = Some series -> fits_plot spf (Some series).
Proof.
  intros Hseries. apply to_series_some_sized in Hseries as (Hlen & ->).
  split; [apply to_series_spec_length; exact Hlen | apply to_series_spec_range].
Qed.

Lemma fits_plot_sized (spf : Z) (f : frame) :
  Z.of_nat (length f) = 2 * spf ->
  fits_plot spf (Some (Transcoder.to_series_spec f)).
Proof.
  intros Hlen. apply (fits_plot_series spf f). apply to_series_sized.
  exact Hlen.
Qed.

(** The loop leaves through its [break] only after turns that all read a
    frame of the expected size, wrote it and redrew, and one that met
    [TclError]; the header could carry the length of all of them. *)
Lemma capture_loop_normal_exit (spf : Z) (turns : list cycle_env) :
  forall (s s' : process) (w : wave_write),
  wav_file s = Some w -> writable w ->
  capture_loop spf turns s = (s', Return tt) ->
  exists (goods later : list cycle_env) (fs : list frame) (c : cycle_env)
         (f : frame),
    turns = goods ++ c :: later /\
    Forall2 (drawn_turn spf) goods fs /\
    closing_turn spf (start_time s) c f /\
    wav_holds (nchannels w) (sampwidth w) (framerate w)
      (Z.of_nat (length (data w ++ concat (fs ++ [f])))).
Proof.
  induction turns as [| c later IH]; intros s s' w Hw Hwr Hrun.
  - discriminate.
  - destruct (turn_cases spf c s w Hw Hwr) as (t & Ht & Heq).
    rewrite Heq in Hrun. clear Heq.
    destruct Ht as [| | | f Hdrawn Hwr' | f Hclosing Hwr' | |];
      try discriminate.
    + apply (IH _ _ (extend w f)) in Hrun; [| reflexivity | exact Hwr'].
      destruct Hrun as (goods & later' & fs & c' & f' & -> & Hgoods & Hc'
                        & Hroom).
      exists (c :: goods), later', (f :: fs), c', f'.
      split; [reflexivity |]. split; [constructor; assumption |].
      split; [exact Hc' |].
      cbn [extend nchannels sampwidth framerate data] in Hroom.
      rewrite <- app_assoc in Hroom. exact Hroom.
    + exists [], later, [], c, f. split; [reflexivity |].
      split; [constructor |]. split; [exact Hclosing |].
      cbn [app concat]. rewrite app_nil_r. apply writable_room. exact Hwr'.
Qed.

(** The frame count stays within one of the number of frames read, and
    the line always shows something of the size of the plot. *)
Lemma capture_loop_bookkeeping (spf : Z) (turns : list cycle_env) :
  forall (s s' : process) (r : result unit) (w : wave_write),
  wav_file s = Some w -> writable w ->
  fits_plot spf (line_ydata s) ->
  capture_loop spf turns s = (s', r) ->
  let read_here :=
    Z.of_nat (length (captured s')) - Z.of_nat (length (captured s)) in
  let drawn_here := frame_count s' - frame_count s in
  0 <= drawn_here <= read_here /\ read_here <= drawn_here + 1 /\
  (r = Return tt -> read_here = drawn_here + 1) /\
  (r = Waiting -> read_here = drawn_here) /\
  fits_plot spf (line_ydata s').
Proof.
  induction turns as [| c later IH]; intros s s' r w Hw Hwr Hfit Hrun;
    cbv zeta.
  - cbn in Hrun. injection Hrun as <- <-.
    repeat split; try lia; try discriminate; assumption.
  - destruct (turn_cases spf c s w Hw Hwr) as (t & Ht & Heq).
    rewrite Heq in Hrun. clear Heq.
    destruct Ht as [e Hread
                   | f e kept w' Hread _ _ _ _ _ _
                   | f Hread _ _ _
                   | f (Hread & _ & Hlen & _) Hwr'
                   | f (Hread & _ & Hlen & _) _
                   | f Hread _ _ Hlen _ _
                   | f e Hread _ _ Hlen _ _].
    + injection Hrun as <- <-.
      repeat split; try lia; try discriminate; assumption.
    + injection Hrun as <- <-. cbn. rewrite length_app. cbn.
      repeat split; try lia; try discriminate; assumption.
    + injection Hrun as <- <-. cbn. rewrite length_app. cbn.
      repeat split; try lia; try discriminate; assumption.
    + apply (IH _ _ _ (extend w f)) in Hrun;
        [| reflexivity | exact Hwr' | exact (fits_plot_sized spf f Hlen)].
      cbv zeta in Hrun. cbn [captured frame_count set_frame_count turn_shown]
        in Hrun. rewrite length_app in Hrun. cbn [length] in Hrun.
      destruct Hrun as (H1 & H2 & H3 & H4 & H5).
      repeat split; try lia; try assumption.
      * intros Hr. specialize (H3 Hr). lia.
      * intros Hr. specialize (H4 Hr). lia.
    + injection Hrun as <- <-. cbn. rewrite length_app. cbn.
      repeat split; try lia; try discriminate;
        apply (fits_plot_sized spf f Hlen).
    + injection Hrun as <- <-. cbn. rewrite length_app. cbn.
      repeat split; try lia; try discriminate;
        apply (fits_plot_sized spf f Hlen).
    + injection Hrun as <- <-. cbn. rewrite length_app. cbn.
      repeat split; try lia; try discriminate;
        apply (fits_plot_sized spf f Hlen).
Qed.

Ltac stopped_before_loop :=
  right; eexists; eexists; split; [reflexivity |];
  cbn; repeat split; auto; try discriminate;
  intros w0 Hw0; try discriminate Hw0; injection Hw0 as <-; reflexivity.

(** A call that does not get to its loop: what it leaves behind. *)
Lemma visualize_audio_stops_early_state
    (di spf fmt ch rate : Z) (out : string) (env : run_env) (s : process) :
  (exists width, starts_recording spf ch rate env width) \/
  (exists s' r, visualize_audio di spf fmt ch rate out env s = (s', r) /\
     r <> Return true /\ r <> Waiting /\
     fig s' = Open /\ audio s' = Open /\
     (stream s' = NoStream \/ stream s' = Active) /\
     frame_count s' = 0 /\ captured s' = [] /\ line_ydata s' = None /\
     (forall w, wav_file s' = Some w -> finalized w = false)).
Proof.
  unfold starts_recording. run_prologue.
  destruct (stream_open env) as [[] | e] eqn:Hopen.
  2:{ destruct e; cbn; stopped_before_loop. }
  cbn.
  destruct (wave_open env) as [[] | e] eqn:Hwave;
    [| cbn; stopped_before_loop].
  cbn.
  destruct (Z.ltb_spec ch 1) as [Hch | Hch]; [cbn; stopped_before_loop |].
  cbn.
  destruct (sample_size env) as [width | e] eqn:Hsize;
    [| cbn; stopped_before_loop].
  cbn.
  destruct (Z.ltb_spec width 1) as [Hw1 | Hw1]; [cbn; stopped_before_loop |].
  destruct (Z.ltb_spec 4 width) as [Hw4 | Hw4]; [cbn; stopped_before_loop |].
  cbn.
  destruct (Z.leb_spec rate 0) as [Hrate | Hrate];
    [cbn; stopped_before_loop |].
  cbn.
  destruct (Z.ltb_spec spf 0) as [Hspf | Hspf]; [cbn; stopped_before_loop |].
  left. exists width. repeat split; try reflexivity; lia.
Qed.

Lemma visualize_audio_false_refusing
    (di spf fmt ch rate : Z) (out : string) (env : run_env)
    (s s' : process) :
  visualize_audio di spf fmt ch rate out env s = (s', Return false) ->
  stream_open env = Fails OSError.
Proof.
  intros Hrun.
  destruct (visualize_audio_stops_early di spf fmt ch rate out env s)
    as [(width & Hstart) | (s1 & r & Hrun' & _ & _ & _ & _ & Hfalse & _)].
  2:{ rewrite Hrun' in Hrun. injection Hrun as _ ->. apply Hfalse.
      reflexivity. }
  exfalso.
  rewrite (visualize_audio_reaches_loop di spf fmt ch rate out env width s
             Hstart) in Hrun.
  destruct Hstart as (_ & _ & _ & Hch & Hwd & Hrate & _).
  destruct (at_loop_writable s ch width rate env Hch Hwd Hrate)
    as (w & Hw & Hwr & _).
  unfold bind in Hrun.
  destruct (capture_loop spf (cycles env) (at_loop s ch width rate env))
    as [s1 r1] eqn:Hloop.
  destruct (capture_loop_invariant spf (cycles env) _ _ _ w Hw Hwr Hloop)
    as (new & rest & kept & w' & _ & Hfile & (_ & _ & _ & Hopen) & _ & _ & _
        & _ & _ & Hout).
  destruct r1 as [[] | e |]; try discriminate.
  destruct (Hout eq_refl) as (Hhead & _).
  destruct (finish_keeps env s1 s' _ w' Hfile Hopen Hhead Hrun)
    as (_ & _ & _ & _ & _ & Hne & _).
  apply Hne. reflexivity.
Qed.

Lemma visualize_audio_true_closed
    (di spf fmt ch rate : Z) (out : string) (env : run_env)
    (s s' : process) :
  visualize_audio di spf fmt ch rate out env s = (s', Return true) ->
  exists (width : Z) (fs : list frame) (c : cycle_env) (f : frame),
    starts_recording spf ch rate env width /\
    closed_after spf env fs c f /\
    wav_holds ch width rate (total_bytes (fs ++ [f])) /\
    closes_cleanly env.
Proof.
  intros Hrun.
  destruct (visualize_audio_stops_early di spf fmt ch rate out env s)
    as [(width & Hstart) | (s1 & r & Hrun' & Hr & _)].
  2:{ rewrite Hrun' in Hrun. injection Hrun as _ ->. contradiction. }
  rewrite (visualize_audio_reaches_loop di spf fmt ch rate out env width s
             Hstart) in Hrun.
  pose proof Hstart as (_ & _ & _ & Hch & Hwd & Hrate & _).
  destruct (at_loop_writable s ch width rate env Hch Hwd Hrate)
    as (w & Hw & Hwr & Hw0).
  unfold bind in Hrun.
  destruct (capture_loop spf (cycles env) (at_loop s ch width rate env))
    as [s1 r1] eqn:Hloop.
  destruct (capture_loop_invariant spf (cycles env) _ _ _ w Hw Hwr Hloop)
    as (new & rest & kept & w' & _ & Hfile & (_ & _ & _ & Hopen) & _ & _ & _
        & _ & _ & Hout).
  destruct r1 as [[] | e |]; try discriminate.
  destruct (Hout eq_refl) as (Hhead & _).
  destruct (capture_loop_normal_exit spf (cycles env) _ _ w Hw Hwr Hloop)
    as (goods & later & fs & c & f & Hcycles & Hgoods & Hclosing & Hroom).
  exists width, fs, c, f. split; [exact Hstart |]. split; [| split].
  - exists goods, later.
    split; [exact Hcycles | split; [exact Hgoods | exact Hclosing]].
  - subst w. exact Hroom.
  - rewrite (finish_cases env s1 w' Hfile Hopen Hhead) in Hrun.
    unfold closes_cleanly.
    destruct (wav_close env) as [[] | e1]; [| discriminate].
    destruct (stream_stop env) as [[] | e2]; [| discriminate].
    destruct (stream_close env) as [[] | e3]; [| discriminate].
    repeat split.
Qed.

(** X3.  [visualize_audio] returns [False] exactly when [audio.open]
    raised [OSError]; no other failure of the device, the file, the plot
    or the teardown comes back as [False]. *)
Theorem returns_false_iff_open_refused
    (di spf fmt ch rate : Z) (out : string) (env : run_env) (s : process) :
  snd (visualize_audio di spf fmt ch rate out env s) = Return false <->
  stream_open env = Fails OSError.
Proof.
  split.
  - destruct (visualize_audio di spf fmt ch rate out env s) as [s' r] eqn:Hrun.
    cbn [snd]. intros ->.
    exact (visualize_audio_false_refusing _ _ _ _ _ _ _ _ _ Hrun).
  - intros Hopen.
    rewrite (visualize_audio_open_refused di spf fmt ch rate out env s Hopen).
    reflexivity.
Qed.

(** X4.  [visualize_audio] returns [True] exactly when the stream and the
    file open and the setup accepts the arguments, every turn up to the
    closing one reads a frame of 2 x samples_per_frame bytes, writes it
    and redraws, the closing turn reads and writes such a frame and meets
    [TclError] at a clock reading other than the start, a WAV header can
    carry the fields and the length of all these frames, and the three
    teardown calls succeed. *)
Theorem returns_true_iff_closed_and_torn_down
    (di spf fmt ch rate : Z) (out : string) (env : run_env) (s : process) :
  snd (visualize_audio di spf fmt ch rate out env s) = Return true <->
  exists (width : Z) (fs : list frame) (c : cycle_env) (f : frame),
    starts_recording spf ch rate env width /\
    closed_after spf env fs c f /\
    wav_holds ch width rate (total_bytes (fs ++ [f])) /\
    closes_cleanly env.
Proof.
  split.
  - destruct (visualize_audio di spf fmt ch rate out env s) as [s' r] eqn:Hrun.
    cbn [snd]. intros ->.
    exact (visualize_audio_true_closed _ _ _ _ _ _ _ _ _ Hrun).
  - intros (width & fs & c & f & Hstart & Hclosed & Hroom & Hwav & Hstop
            & Hclose).
    rewrite (visualize_audio_until_closed di spf fmt ch rate out env width
               fs c f s Hstart Hclosed Hroom).
    erewrite (finish_cases env (at_break s ch width rate env fs c f))
      by reflexivity.
    rewrite Hwav, Hstop, Hclose. reflexivity.
Qed.

(** A turn that reads and writes a frame of the expected size after the
    frames [fs] have been drawn: where the call stands at its redraw. *)
Lemma visualize_audio_at_redraw
    (di spf fmt ch rate : Z) (out : string) (env : run_env) (width : Z)
    (goods later : list cycle_env) (fs : list frame) (c : cycle_env)
    (f : frame) (s : process) :
  starts_recording spf ch rate env width ->
  cycles env = goods ++ c :: later ->
  Forall2 (drawn_turn spf) goods fs ->
  read c = Gives f -> write c = Written ->
  wav_holds ch width rate (total_bytes (fs ++ [f])) ->
  let w := {| nchannels := ch; sampwidth := width; framerate := rate;
              headerwritten := false; data := []; finalized := false |} in
  let s1 := after_turns (at_loop s ch width rate env) w fs in
  visualize_audio di spf fmt ch rate out env s =
  (capture_loop spf (c :: later) ;; finish env) s1 /\
  writable (grown w fs) /\
  wav_holds (nchannels (grown w fs)) (sampwidth (grown w fs))
    (framerate (grown w fs)) (Z.of_nat (length (data (grown w fs) ++ f))) /\
  extend (grown w fs) f =
  {| nchannels := ch; sampwidth := width; framerate := rate;
     headerwritten := true; data := concat (fs ++ [f]); finalized := false |}.
Proof.
  intros Hstart Hcycles Hgoods Hread Hwrite Hroom. cbv zeta.
  assert (Hsplit : total_bytes (fs ++ [f])
                   = total_bytes fs + Z.of_nat (length f)).
  { unfold total_bytes. rewrite concat_app, length_app. cbn [concat].
    rewrite app_nil_r. lia. }
  destruct (visualize_audio_after_turns di spf fmt ch rate out env width
              goods (c :: later) fs s Hstart Hcycles Hgoods) as (Hrun & Hwr).
  { intros _. apply (wav_holds_less _ _ _ _ _ Hroom). lia. }
  split; [exact Hrun |]. split; [exact Hwr |]. split.
  - match goal with
    | |- context [grown ?w0 fs] =>
        destruct (grown_header w0 fs) as (-> & -> & -> & _)
    end.
    rewrite grown_data, length_app.
    cbn [nchannels sampwidth framerate data app].
    apply (wav_holds_less _ _ _ _ _ Hroom). unfold total_bytes in *. lia.
  - rewrite extend_grown. reflexivity.
Qed.

(** X5.  When the window is found closed at a clock reading equal to the
    one taken on line 102, the division of line 125 raises
    [ZeroDivisionError] inside the handler: the call ends with it, the
    two closing messages are not printed, and the file, which holds every
    frame read, the last one included, is not finalized.  (The file has
    taken every frame, and a WAV header can carry their length.) *)
Theorem closing_in_no_time_divides_by_zero
    (di spf fmt ch rate : Z) (out : string) (env : run_env) (width : Z)
    (goods later : list cycle_env) (fs : list frame) (c : cycle_env)
    (f : frame) (s : process) :
  starts_recording spf ch rate env width ->
  cycles env = goods ++ c :: later ->
  Forall2 (drawn_turn spf) goods fs ->
  read c = Gives f -> write c = Written ->
  wav_holds ch width rate (total_bytes (fs ++ [f])) ->
  Z.of_nat (length f) = 2 * spf ->
  redraw c = Fails TclError ->
  clock c = clock_start env ->
  exists s',
    visualize_audio di spf fmt ch rate out env s =
    (s', Raise ZeroDivisionError) /\
    stdout s' = stdout s ++ [SayStarted] /\
    wav_file s' = Some {| nchannels := ch; sampwidth := width;
                          framerate := rate; headerwritten := true;
                          data := concat (fs ++ [f]); finalized := false |} /\
    frame_count s' = Z.of_nat (length fs) /\
    stream s' = Active /\ audio s' = Open.
Proof.
  intros Hstart Hcycles Hgoods Hread Hwrite Hroom Hlen Hdraw Hclock.
  destruct (visualize_audio_at_redraw di spf fmt ch rate out env width
              goods later fs c f s Hstart Hcycles Hgoods Hread Hwrite Hroom)
    as (Hrun & Hwr & Hroom' & Hfile).
  rewrite Hrun. unfold bind.
  set (w := {| nchannels := ch; sampwidth := width; framerate := rate;
               headerwritten := false; data := []; finalized := false |})
    in *.
  rewrite (turn_window_closed_at_once spf c later
             (after_turns (at_loop s ch width rate env) w fs) (grown w fs)
             f Hread eq_refl Hwr Hwrite Hroom' Hlen Hdraw Hclock).
  eexists. split; [reflexivity |].
  unfold turn_shown. rewrite Hfile. cbn. repeat split.
Qed.

Lemma closing_in_no_time_divides_by_zero_witness :
  exists s',
    visualize_audio 0 4 8 1 8000 "output.wav" Samples.closed_in_no_time
      startup = (s', Raise ZeroDivisionError) /\
    stdout s' = stdout startup ++ [SayStarted] /\
    wav_file s' = Some {| nchannels := 1; sampwidth := 2; framerate := 8000;
                          headerwritten := true;
                          data := concat ([Samples.f1] ++ [Samples.f2]);
                          finalized := false |} /\
    frame_count s' = Z.of_nat (length [Samples.f1]) /\
    stream s' = Active /\ audio s' = Open.
Proof.
  refine (closing_in_no_time_divides_by_zero 0 4 8 1 8000 "output.wav"
            Samples.closed_in_no_time 2 [Samples.drawn Samples.f1] []
            [Samples.f1] (Samples.closing Samples.f2 100) Samples.f2 startup
            _ _ _ _ _ _ _ _ _).
  - unfold starts_recording. cbn. repeat split; lia.
  - reflexivity.
  - repeat constructor.
  - reflexivity.
  - reflexivity.
  - unfold wav_holds, total_bytes. cbn. lia.
  - reflexivity.
  - reflexivity.
  - reflexivity.
Defined.

(** X6.  Only [TclError] ends the loop normally: when the redraw of a
    turn raises anything else, the call ends with that exception, its
    frame already written, nothing further printed and nothing closed.
    (The file has taken every frame, and a WAV header can carry their
    length.) *)
Theorem other_redraw_errors_escape
    (di spf fmt ch rate : Z) (out : string) (env : run_env) (width : Z)
    (goods later : list cycle_env) (fs : list frame) (c : cycle_env)
    (f : frame) (e : exn) (s : process) :
  starts_recording spf ch rate env width ->
  cycles env = goods ++ c :: later ->
  Forall2 (drawn_turn spf) goods fs ->
  read c = Gives f -> write c = Written ->
  wav_holds ch width rate (total_bytes (fs ++ [f])) ->
  Z.of_nat (length f) = 2 * spf ->
  redraw c = Fails e -> e <> TclError ->
  exists s',
    visualize_audio di spf fmt ch rate out env s = (s', Raise e) /\
    stdout s' = stdout s ++ [SayStarted] /\
    wav_file s' = Some {| nchannels := ch; sampwidth := width;
                          framerate := rate; headerwritten := true;
                          data := concat (fs ++ [f]); finalized := false |} /\
    frame_count s' = Z.of_nat (length fs) /\
    stream s' = Active /\ audio s' = Open.
Proof.
  intros Hstart Hcycles Hgoods Hread Hwrite Hroom Hlen Hdraw He.
  destruct (visualize_audio_at_redraw di spf fmt ch rate out env width
              goods later fs c f s Hstart Hcycles Hgoods Hread Hwrite Hroom)
    as (Hrun & Hwr & Hroom' & Hfile).
  rewrite Hrun. unfold bind.
  set (w := {| nchannels := ch; sampwidth := width; framerate := rate;
               headerwritten := false; data := []; finalized := false |})
    in *.
  rewrite (turn_redraw_fails spf c later
             (after_turns (at_loop s ch width rate env) w fs) (grown w fs)
             f Hread eq_refl Hwr Hwrite Hroom' Hlen e Hdraw He).
  eexists. split; [reflexivity |].
  unfold turn_shown. rewrite Hfile. cbn. repeat split.
Qed.

Lemma other_redraw_errors_escape_witness :
  exists s',
    visualize_audio 0 4 8 1 8000 "output.wav" Samples.broken_canvas startup
    = (s', Raise ValueError) /\
    stdout s' = stdout startup ++ [SayStarted] /\
    wav_file s' = Some {| nchannels := 1; sampwidth := 2; framerate := 8000;
                          headerwritten := true;
                          data := concat ([Samples.f1] ++ [Samples.f2]);
                          finalized := false |} /\
    frame_count s' = Z.of_nat (length [Samples.f1]) /\
    stream s' = Active /\ audio s' = Open.
Proof.
  refine (other_redraw_errors_escape 0 4 8 1 8000 "output.wav"
            Samples.broken_canvas 2 [Samples.drawn Samples.f1] []
            [Samples.f1]
            {| read := Gives Samples.f2; write := Written;
               redraw := Fails ValueError; clock := 0 |}
            Samples.f2 ValueError startup _ _ _ _ _ _ _ _ _).
  - unfold starts_recording. cbn. repeat split; lia.
  - reflexivity.
  - repeat constructor.
  - reflexivity.
  - reflexivity.
  - unfold wav_holds, total_bytes. cbn. lia.
  - reflexivity.
  - reflexivity.
  - discriminate.
Defined.

(** X7.  The handler of lines 71-73 covers [audio.open] only: when the
    stream opens and [wave.open] raises, [OSError] included, the exception
    leaves the call and the loop of the script; the stream is left active
    and the PyAudio instance not terminated. *)
Theorem file_open_failure_is_not_caught
    (args : arguments) (di : Z) (env : run_env) (e : exn)
    (more : list run_env) (rounds : list prompt_round) (s : process) :
  stream_open env = Gives tt ->
  wave_open env = Fails e ->
  exists s',
    visualize_audio di (samples_per_frame args) (audio_format args)
      (num_channels args) (sample_rate args) (output_file args) env s
    = (s', Raise e) /\
    driver_loop args di (env :: more) rounds s = (s', Raise e) /\
    stdout s' = stdout s /\ wav_file s' = None /\
    stream s' = Active /\ audio s' = Open.
Proof.
  intros Hopen Hwave.
  assert (Hrun : visualize_audio di (samples_per_frame args)
                   (audio_format args) (num_channels args) (sample_rate args)
                   (output_file args) env s
                 = (set_stream Active
                      (set_audio Open (set_fig Open (fresh_locals s))),
                    Raise e)).
  { run_prologue. rewrite Hopen. cbn. rewrite Hwave. reflexivity. }
  eexists. split; [exact Hrun |]. split.
  - cbn [driver_loop]. unfold bind at 1. rewrite Hrun. reflexivity.
  - repeat split.
Qed.

Lemma file_open_failure_is_not_caught_witness :
  exists s',
    visualize_audio 0 4 8 1 8000 "output.wav" Samples.unwritable startup
    = (s', Raise OSError) /\
    driver_loop Samples.cli 0 [Samples.unwritable] [] startup
    = (s', Raise OSError) /\
    stdout s' = stdout startup /\ wav_file s' = None /\
    stream s' = Active /\ audio s' = Open.
Proof.
  exact (file_open_failure_is_not_caught Samples.cli 0 Samples.unwritable
           OSError [] [] startup eq_refl eq_refl).
Defined.

(** X8.  The loop has no end of its own: as long as every read gives a
    frame of the expected size, the file takes it (a WAV header can carry
    the length of them all) and every redraw succeeds, the call is still
    in its loop, with as many redraws counted as frames read and written,
    and the file not finalized. *)
Theorem loop_runs_while_window_is_open
    (di spf fmt ch rate : Z) (out : string) (env : run_env) (width : Z)
    (fs : list frame) (s : process) :
  starts_recording spf ch rate env width ->
  Forall2 (drawn_turn spf) (cycles env) fs ->
  (fs <> [] -> wav_holds ch width rate (total_bytes fs)) ->
  exists s',
    visualize_audio di spf fmt ch rate out env s = (s', Waiting) /\
    frame_count s' = Z.of_nat (length fs) /\
    captured s' = fs /\
    wav_file s' = Some {| nchannels := ch; sampwidth := width;
                          framerate := rate;
                          headerwritten := match fs with
                                           | [] => false
                                           | _ :: _ => true
                                           end;
                          data := concat fs; finalized := false |} /\
    stream s' = Active.
Proof.
  intros Hstart Hgoods Hroom.
  destruct (visualize_audio_after_turns di spf fmt ch rate out env width
              (cycles env) [] fs s Hstart (eq_sym (app_nil_r _)) Hgoods
              Hroom) as (Hrun & _).
  rewrite Hrun. eexists. split; [reflexivity |].
  split; [reflexivity |]. split; [reflexivity |].
  split; [destruct fs; reflexivity | reflexivity].
Qed.

Lemma loop_runs_while_window_is_open_witness :
  exists s',
    visualize_audio 0 4 8 1 8000 "output.wav" Samples.still_open startup
    = (s', Waiting) /\
    frame_count s' = Z.of_nat (length [Samples.f1; Samples.f2]) /\
    captured s' = [Samples.f1; Samples.f2] /\
    wav_file s' = Some {| nchannels := 1; sampwidth := 2; framerate := 8000;
                          headerwritten := true;
                          data := concat [Samples.f1; Samples.f2];
                          finalized := false |} /\
    stream s' = Active.
Proof.
  refine (loop_runs_while_window_is_open 0 4 8 1 8000 "output.wav"
            Samples.still_open 2 [Samples.f1; Samples.f2] startup _ _ _).
  - unfold starts_recording. cbn. repeat split; lia.
  - repeat constructor.
  - intros _. unfold wav_holds, total_bytes. cbn. lia.
Defined.

(** ** What every call keeps *)

(** The teardown touches the file, the stream and the instance only, and
    in that order. *)
Lemma finish_only_closes (env : run_env) (s s' : process) (r : result bool)
    (w : wave_write) :
  wav_file s = Some w -> finalized w = false -> headerwritten w = true ->
  stream s = Active -> audio s = Open ->
  finish env s = (s', r) ->
  frame_count s' = frame_count s /\ captured s' = captured s /\
  line_ydata s' = line_ydata s /\ fig s' = fig s /\
  (audio s' = Released <-> r = Return true) /\
  (stream s' = Closed <-> r = Return true) /\
  (stream s' = Stopped \/ stream s' = Closed ->
   wav_file s' = Some (finalize w)) /\
  r <> Waiting.
Proof.
  intros Hw Hfin Hhead Hstream Haudio Hrun.
  rewrite (finish_cases env s w Hw Hfin Hhead) in Hrun.
  destruct (wav_close env) as [[] | e1]; [| injection Hrun as <- <-].
  1: destruct (stream_stop env) as [[] | e2]; [| injection Hrun as <- <-].
  1: destruct (stream_close env) as [[] | e3]; injection Hrun as <- <-.
  all: cbn; rewrite ?Hstream, ?Haudio;
    repeat split; try reflexivity; try discriminate;
    try (intros [H | H]; discriminate H).
Qed.

Section EveryCall.

Variables (di spf fmt ch rate : Z) (out : string) (env : run_env).
Variable s : process.

Let final : process * result bool :=
  visualize_audio di spf fmt ch rate out env s.

(** Where a call that got to its loop stands when the loop is left. *)
Lemma loop_left (width : Z) :
  starts_recording spf ch rate env width ->
  exists (s1 : process) (r1 : result unit) (w1 : wave_write),
    final = (let (s', r) := (s1, r1) in
             match r with
             | Return _ => finish env s'
             | Raise e => (s', Raise e)
             | Waiting => (s', Waiting)
             end) /\
    wav_file s1 = Some w1 /\ finalized w1 = false /\
    (r1 = Return tt -> headerwritten w1 = true) /\
    fig s1 = Open /\ audio s1 = Open /\ stream s1 = Active /\
    0 <= frame_count s1 <= Z.of_nat (length (captured s1)) /\
    Z.of_nat (length (captured s1)) <= frame_count s1 + 1 /\
    (r1 = Return tt ->
     Z.of_nat (length (captured s1)) = frame_count s1 + 1) /\
    (r1 = Waiting -> Z.of_nat (length (captured s1)) = frame_count s1) /\
    fits_plot spf (line_ydata s1).
Proof.
  intros Hstart. unfold final.
  rewrite (visualize_audio_reaches_loop di spf fmt ch rate out env width s
             Hstart).
  destruct Hstart as (_ & _ & _ & Hch & Hwd & Hrate & _).
  destruct (at_loop_writable s ch width rate env Hch Hwd Hrate)
    as (w & Hw & Hwr & Hw0).
  unfold bind.
  destruct (capture_loop spf (cycles env) (at_loop s ch width rate env))
    as [s1 r1] eqn:Hloop.
  destruct (capture_loop_invariant spf (cycles env) _ _ _ w Hw Hwr Hloop)
    as (new & rest & kept & w' & _ & Hfile & (_ & _ & _ & Hopen) & _ & _ & _
        & _ & (Hfig & Haudio & Hstream) & Hout).
  pose proof (capture_loop_bookkeeping spf (cycles env) _ _ _ w Hw Hwr I
                Hloop) as Hbook.
  cbv zeta in Hbook. cbn [captured frame_count at_loop length Z.of_nat]
    in Hbook.
  destruct Hbook as (H1 & H2 & H3 & H4 & H5).
  exists s1, r1, w'.
  split; [reflexivity |]. split; [exact Hfile |]. split; [exact Hopen |].
  split; [intros Hr; apply (Hout Hr) |].
  repeat split; try assumption; try lia.
  - intros Hr. specialize (H3 Hr). lia.
  - intros Hr. specialize (H4 Hr). lia.
Qed.

(** X9.  In every call, however it ends, the frame count is the number of
    frames read or one less: one less when the call returns [True] (the
    frame of the closing turn is written, not counted), equal while the
    call is still in its loop. *)
Theorem frame_count_trails_frames_read :
  let count := frame_count (fst final) in
  let frames := Z.of_nat (length (captured (fst final))) in
  0 <= count <= frames /\ frames <= count + 1 /\
  (snd final = Return true -> frames = count + 1) /\
  (snd final = Waiting -> frames = count).
Proof.
  cbv zeta.
  destruct (visualize_audio_stops_early_state di spf fmt ch rate out env s)
    as [(width & Hstart)
       | (s' & r & Hrun & Hr & Hw & _ & _ & _ & Hcount & Hcap & _)].
  2:{ fold final in Hrun. rewrite Hrun. cbn [fst snd]. rewrite Hcount, Hcap.
      cbn. repeat split; try lia; intros; contradiction. }
  destruct (loop_left width Hstart)
    as (s1 & r1 & w1 & Hfinal & Hfile & Hopen & Hhead & _ & Haudio & Hstream
        & Hc1 & Hc2 & Hc3 & Hc4 & _).
  rewrite Hfinal. destruct r1 as [[] | e |]; cbn [fst snd].
  - destruct (finish env s1) as [s2 r2] eqn:Hfin. cbn [fst snd].
    destruct (finish_only_closes env s1 s2 r2 w1 Hfile Hopen (Hhead eq_refl)
                Hstream Haudio Hfin)
      as (Hcount & Hcap & _ & _ & _ & _ & _ & Hnw).
    rewrite Hcount, Hcap. specialize (Hc3 eq_refl).
    repeat split; try lia. intros Hr. contradiction.
  - repeat split; try lia; discriminate.
  - specialize (Hc4 eq_refl). repeat split; try lia. discriminate.
Qed.

(** X10.  In every call, however it ends, what [line.set_ydata] was last
    given has samples_per_frame values, as many as the x coordinates of
    line 82, all within the y limits [0, 255] of line 90 (or the line
    still shows the random curve of line 84). *)
Theorem line_always_fits_the_plot :
  fits_plot spf (line_ydata (fst final)).
Proof.
  destruct (visualize_audio_stops_early_state di spf fmt ch rate out env s)
    as [(width & Hstart)
       | (s' & r & Hrun & _ & _ & _ & _ & _ & _ & _ & Hline & _)].
  2:{ fold final in Hrun. rewrite Hrun. cbn [fst]. rewrite Hline. exact I. }
  destruct (loop_left width Hstart)
    as (s1 & r1 & w1 & Hfinal & Hfile & Hopen & Hhead & _ & Haudio & Hstream
        & _ & _ & _ & _ & Hfit).
  rewrite Hfinal. destruct r1 as [[] | e |]; cbn [fst snd]; try exact Hfit.
  destruct (finish env s1) as [s2 r2] eqn:Hfin. cbn [fst].
  destruct (finish_only_closes env s1 s2 r2 w1 Hfile Hopen (Hhead eq_refl)
              Hstream Haudio Hfin)
    as (_ & _ & Hline & _).
  rewrite Hline. exact Hfit.
Qed.

(** X11.  In every call, however it ends: the figure is never closed;
    the PyAudio instance is terminated exactly when the call returns
    [True], and so is the stream closed; and the stream is never stopped
    or closed with the file left unfinalized. *)
Theorem resources_at_the_end_of_a_call :
  fig (fst final) = Open /\
  (audio (fst final) = Released <-> snd final = Return true) /\
  (stream (fst final) = Closed <-> snd final = Return true) /\
  (stream (fst final) = Stopped \/ stream (fst final) = Closed ->
   exists w, wav_file (fst final) = Some w /\ finalized w = true).
Proof.
  destruct (visualize_audio_stops_early_state di spf fmt ch rate out env s)
    as [(width & Hstart)
       | (s' & r & Hrun & Hr & _ & Hfig & Haudio & Hstream & _)].
  2:{ fold final in Hrun. rewrite Hrun. cbn [fst snd]. rewrite Hfig, Haudio.
      split; [reflexivity |].
      split; [split; [discriminate | intros; contradiction] |].
      split; [split; [| intros; contradiction] |];
        destruct Hstream as [-> | ->];
        try discriminate; intros [H | H]; discriminate H. }
  destruct (loop_left width Hstart)
    as (s1 & r1 & w1 & Hfinal & Hfile & Hopen & Hhead & Hfig & Haudio
        & Hstream & _).
  rewrite Hfinal. destruct r1 as [[] | e |]; cbn [fst snd].
  - destruct (finish env s1) as [s2 r2] eqn:Hfin. cbn [fst snd].
    destruct (finish_only_closes env s1 s2 r2 w1 Hfile Hopen (Hhead eq_refl)
                Hstream Haudio Hfin)
      as (_ & _ & _ & Hfig2 & Ha & Hs & Hf & _).
    rewrite Hfig2. repeat split; try assumption; try apply Ha; try apply Hs.
    intros H. exists (finalize w1). split; [apply Hf; exact H | reflexivity].
  - rewrite Haudio, Hstream.
    repeat split; try assumption; try discriminate;
      intros [H | H]; discriminate H.
  - rewrite Haudio, Hstream.
    repeat split; try assumption; try discriminate;
      intros [H | H]; discriminate H.
Qed.

End EveryCall.

(** ** Listing and validating devices *)

Lemma device_lines_In (devices : list device_info) :
  forall (k : Z) (m : message),
  In m (device_lines k devices) <->
  exists (n : nat) (d : device_info),
    nth_error devices n = Some d /\ 0 < maxInputChannels d /\
    m = SayDevice (k + Z.of_nat n) (name d).
Proof.
  induction devices as [| d0 rest IH]; intros k m.
  - cbn. split; [contradiction |]. intros (n & d & Hn & _).
    destruct n; discriminate.
  - cbn [device_lines]. rewrite in_app_iff, IH. split.
    + intros [Hhead | (n & d & Hn & Hmic & ->)].
      * destruct (Z.gtb_spec (maxInputChannels d0) 0) as [Hmic | Hmic];
          [| contradiction].
        destruct Hhead as [<- | []]. exists 0%nat, d0.
        split; [reflexivity |]. split; [lia |]. f_equal. lia.
      * exists (S n), d. split; [exact Hn |]. split; [exact Hmic |].
        f_equal. lia.
    + intros ([| n] & d & Hn & Hmic & ->).
      * left. injection Hn as ->.
        destruct (Z.gtb_spec (maxInputChannels d) 0); [| lia].
        left. f_equal. lia.
      * right. exists n, d. split; [exact Hn |]. split; [exact Hmic |].
        f_equal. lia.
Qed.

Lemma device_lines_indexed (devices : list device_info) :
  forall k : nat,
  device_lines (Z.of_nat k) devices =
  map (fun p => SayDevice (Z.of_nat (fst p)) (name (snd p)))
    (filter (fun p => 0 <? maxInputChannels (snd p))
       (combine (seq k (length devices)) devices)).
Proof.
  induction devices as [| d rest IH]; intros k.
  - reflexivity.
  - cbn [device_lines length seq combine filter snd].
    replace (Z.of_nat k + 1) with (Z.of_nat (S k)) by lia.
    rewrite IH, Z.gtb_ltb.
    destruct (0 <? maxInputChannels d); reflexivity.
Qed.

(** X12.  [list_devices] only prints, and what it adds to the output is
    exactly this: going through the devices of host API 0 in index order,
    one line for each device that has more than zero input channels,
    carrying that device's index and name; each such device has its line
    once, and no other device has one. *)
Theorem list_devices_lists_input_devices (audio_instance : host_api)
    (s : process) :
  let indexed := combine (seq 0 (length audio_instance)) audio_instance in
  let inputs := filter (fun p => 0 <? maxInputChannels (snd p)) indexed in
  list_devices audio_instance s =
  (set_stdout
     (stdout s ++
      map (fun p => SayDevice (Z.of_nat (fst p)) (name (snd p))) inputs) s,
   Return tt).
Proof.
  cbv zeta. unfold list_devices.
  rewrite list_devices_from_prints.
  change 0 with (Z.of_nat 0) at 1.
  rewrite (device_lines_indexed audio_instance 0). reflexivity.
Qed.

(** With a microphone at index 0 and loudspeakers at index 1, one line. *)
Example list_devices_two_devices :
  stdout (fst (list_devices Samples.two_devices startup))
  = [SayDevice 0 "Microphone"].
Proof. reflexivity. Qed.

(** X13.  Every index [list_devices] prints is one [validate_device]
    accepts on the same instance; but [validate_device] looks at the count
    only, so it also accepts the index of a device without input channels,
    which [list_devices] never prints. *)
Theorem listed_indices_validate_and_more (audio_instance : host_api)
    (s : process) :
  let printed := stdout (fst (list_devices audio_instance s)) in
  (forall (i : Z) (nm : string),
     In (SayDevice i nm) printed ->
     In (SayDevice i nm) (stdout s) \/
     validate_device i audio_instance = true) /\
  (forall (n : nat) (d : device_info),
     nth_error audio_instance n = Some d -> maxInputChannels d <= 0 ->
     validate_device (Z.of_nat n) audio_instance = true /\
     (In (SayDevice (Z.of_nat n) (name d)) printed ->
      In (SayDevice (Z.of_nat n) (name d)) (stdout s))).
Proof.
  cbv zeta. unfold list_devices. rewrite list_devices_from_prints.
  cbn [fst stdout set_stdout]. split.
  - intros i nm Hin. apply in_app_iff in Hin as [Hin | Hin]; [left; exact Hin |].
    right. apply device_lines_In in Hin as (n & d & Hn & _ & Heq).
    injection Heq as -> _. apply validate_device_spec. unfold deviceCount.
    assert (n < length audio_instance)%nat
      by (apply nth_error_Some; congruence).
    lia.
  - intros n d Hn Hmic. split.
    + apply validate_device_spec. unfold deviceCount.
      assert (n < length audio_instance)%nat
        by (apply nth_error_Some; congruence).
      lia.
    + intros Hin. apply in_app_iff in Hin as [Hin | Hin]; [exact Hin |].
      exfalso. apply device_lines_In in Hin as (n' & d' & Hn' & Hmic' & Heq).
      injection Heq as Hidx _.
      assert (n' = n) as -> by lia.
      rewrite Hn in Hn'. injection Hn' as <-. lia.
Qed.

Lemma listed_indices_validate_and_more_witness :
  validate_device (Z.of_nat 1) Samples.two_devices = true /\
  (In (SayDevice (Z.of_nat 1) "Speakers")
      (stdout (fst (list_devices Samples.two_devices startup))) ->
   In (SayDevice (Z.of_nat 1) "Speakers") (stdout startup)).
Proof.
  refine (proj2 (listed_indices_validate_and_more Samples.two_devices startup)
            1%nat {| name := "Speakers"; maxInputChannels := 0 |} eq_refl _).
  cbn. lia.
Defined.

(** ** Selecting a device *)

Lemma select_device_skips_rejected (used : list prompt_round) :
  forall (rest : list prompt_round) (s : process),
  Forall rejected used ->
  exists s1, select_device (used ++ rest) s = select_device rest s1.
Proof.
  induction used as [| r used IH]; intros rest s Hused.
  - exists s. reflexivity.
  - inversion Hused as [| ? ? Hr Hused']; subst. cbn [app].
    destruct Hr as [Hword | (j & Hanswer & Hvalid)].
    + rewrite (round_not_an_integer r (used ++ rest) s Hword).
      apply IH. exact Hused'.
    + rewrite (round_invalid_index r (used ++ rest) s j Hanswer Hvalid).
      apply IH. exact Hused'.
Qed.

Lemma select_device_first_pick (rounds : list prompt_round) :
  forall (s s' : process) (i : Z) (rest : list prompt_round),
  select_device rounds s = (s', Return (i, rest)) ->
  exists (used : list prompt_round) (r : prompt_round),
    rounds = used ++ r :: rest /\ Forall rejected used /\ picks r i.
Proof.
  induction rounds as [| r later IH]; intros s s' i rest Hrun.
  - discriminate.
  - destruct (answer r) as [j | e] eqn:Hanswer.
    + destruct (validate_device j (checked r)) eqn:Hvalid.
      * rewrite (round_picks r later s j (conj Hanswer Hvalid)) in Hrun.
        injection Hrun as _ <- <-. exists [], r. split; [reflexivity |].
        split; [constructor | split; assumption].
      * rewrite (round_invalid_index r later s j Hanswer Hvalid) in Hrun.
        apply IH in Hrun as (used & r' & -> & Hused & Hpick).
        exists (r :: used), r'. split; [reflexivity |].
        split; [| exact Hpick]. constructor; [| exact Hused].
        right. exists j. split; assumption.
    + destruct (exn_eqb e ValueError) eqn:He.
      * assert (e = ValueError) as ->
          by (destruct e; try discriminate; reflexivity).
        rewrite (round_not_an_integer r later s Hanswer) in Hrun.
        apply IH in Hrun as (used & r' & -> & Hused & Hpick).
        exists (r :: used), r'. split; [reflexivity |].
        split; [| exact Hpick]. constructor; [| exact Hused].
        left. exact Hanswer.
      * assert (e <> ValueError) as Hne by (intros ->; discriminate).
        rewrite (round_input_raises r later s e Hanswer Hne) in Hrun.
        discriminate.
Qed.

(** X14.  [select_device] returns index [i], leaving the rounds [rest]
    unused, exactly when the rounds before are all turned down (not an
    integer, or an integer [validate_device] refuses) and the next one
    gives [i] and [i] validates: it returns the first valid answer. *)
Theorem select_device_returns_first_valid_answer
    (rounds rest : list prompt_round) (i : Z) (s : process) :
  (exists s', select_device rounds s = (s', Return (i, rest))) <->
  (exists (used : list prompt_round) (r : prompt_round),
     rounds = used ++ r :: rest /\ Forall rejected used /\ picks r i).
Proof.
  split.
  - intros (s' & Hrun). exact (select_device_first_pick _ _ _ _ _ Hrun).
  - intros (used & r & -> & Hused & Hpick).
    destruct (select_device_skips_rejected used (r :: rest) s Hused)
      as (s1 & ->).
    rewrite (round_picks r rest s1 i Hpick). eexists. reflexivity.
Qed.

(** X15.  An exception of [int(input(...))] other than [ValueError], such
    as [EOFError] at the end of the input, is not caught: after any number
    of rounds turned down it leaves [select_device], and when the script
    was selecting after a refused call it ends the script. *)
Theorem input_errors_end_the_script
    (args : arguments) (d : Z) (env : run_env) (more : list run_env)
    (used later : list prompt_round) (r : prompt_round) (e : exn)
    (s : process) :
  Forall rejected used ->
  answer r = Fails e -> e <> ValueError ->
  (exists s', select_device (used ++ r :: later) s = (s', Raise e)) /\
  (refusing env ->
   exists s', driver_loop args d (env :: more) (used ++ r :: later) s
              = (s', Raise e)).
Proof.
  intros Hused Hanswer He. split.
  - destruct (select_device_skips_rejected used (r :: later) s Hused)
      as (s1 & ->).
    rewrite (round_input_raises r later s1 e Hanswer He).
    eexists. reflexivity.
  - intros Henv. cbn [driver_loop]. unfold bind at 1.
    rewrite (visualize_audio_open_refused d (samples_per_frame args)
               (audio_format args) (num_channels args) (sample_rate args)
               (output_file args) env s Henv).
    cbn [negb]. unfold bind at 1.
    destruct (select_device_skips_rejected used (r :: later)
                {| stdout := stdout s ++ [SayInvalidIndex]; fig := Open;
                   audio := Open; stream := NoStream; wav_file := None;
                   line_ydata := None; frame_count := 0; start_time := 0;
                   captured := [] |} Hused) as (s1 & ->).
    rewrite (round_input_raises r later s1 e Hanswer He).
    eexists. reflexivity.
Qed.

Lemma input_errors_end_the_script_witness :
  (exists s', select_device Samples.input_ends startup = (s', Raise EOFError))
  /\
  (refusing Samples.refused ->
   exists s', driver_loop Samples.cli 0 [Samples.refused] Samples.input_ends
                startup = (s', Raise EOFError)).
Proof.
  refine (input_errors_end_the_script Samples.cli 0 Samples.refused []
            [ {| listed := Samples.two_devices; answer := Fails ValueError;
                 checked := Samples.two_devices |} ]
            []
            {| listed := Samples.two_devices; answer := Fails EOFError;
               checked := Samples.two_devices |}
            EOFError startup _ _ _).
  - constructor; [left; reflexivity | constructor].
  - reflexivity.
  - discriminate.
Defined.

(** ** How the script ends normally *)

Lemma driver_loop_exit_shape (args : arguments) (runs : list run_env) :
  forall (d : Z) (rounds : list prompt_round) (s s' : process),
  driver_loop args d runs rounds s = (s', Return tt) ->
  exists (fails later : list run_env) (env : run_env) (d' : Z)
         (s0 : process),
    runs = fails ++ env :: later /\
    Forall refusing fails /\
    visualize_audio d' (samples_per_frame args) (audio_format args)
      (num_channels args) (sample_rate args) (output_file args) env s0
    = (s', Return true).
Proof.
  induction runs as [| env later IH]; intros d rounds s s' Hrun.
  - discriminate.
  - cbn [driver_loop] in Hrun. unfold bind at 1 in Hrun.
    destruct (visualize_audio d (samples_per_frame args) (audio_format args)
                (num_channels args) (sample_rate args) (output_file args)
                env s) as [s1 r1] eqn:Hcall.
    destruct r1 as [[] | e |]; try discriminate.
    + injection Hrun as <-. exists [], later, env, d, s.
      split; [reflexivity |]. split; [constructor | exact Hcall].
    + cbn [negb] in Hrun. unfold bind at 1 in Hrun.
      destruct (select_device rounds s1) as [s2 r2] eqn:Hselect.
      destruct r2 as [[d' rest] | e |]; try discriminate.
      cbn [fst snd] in Hrun.
      destruct (IH _ _ _ _ Hrun)
        as (fails & later' & env' & d'' & s0 & -> & Hfails & Hcall').
      exists (env :: fails), later', env', d'', s0.
      split; [reflexivity |]. split; [| exact Hcall'].
      constructor; [| exact Hfails].
      exact (visualize_audio_false_refusing _ _ _ _ _ _ _ _ _ Hcall).
Qed.

(** X16.  When the script ends normally, its calls of [visualize_audio]
    were some number of calls PyAudio refused to open the stream for,
    followed by one call that returned [True]: the stream and the file
    opened, the window was closed after some well-sized frames, all of
    them written and of a length a WAV header can carry, and the teardown
    succeeded; no call was made after that one. *)
Theorem script_ends_after_refusals_and_one_success
    (args : arguments) (at_start : host_api) (runs : list run_env)
    (rounds : list prompt_round) (s s' : process) :
  main args at_start runs rounds s = (s', Return tt) ->
  exists (fails later : list run_env) (env : run_env),
    runs = fails ++ env :: later /\
    Forall refusing fails /\
    (exists (d : Z) (s0 : process),
       visualize_audio d (samples_per_frame args) (audio_format args)
         (num_channels args) (sample_rate args) (output_file args) env s0
       = (s', Return true)) /\
    (exists (width : Z) (fs : list frame) (c : cycle_env) (f : frame),
       starts_recording (samples_per_frame args) (num_channels args)
         (sample_rate args) env width /\
       closed_after (samples_per_frame args) env fs c f /\
       wav_holds (num_channels args) width (sample_rate args)
         (total_bytes (fs ++ [f])) /\
       closes_cleanly env).
Proof.
  intros Hmain. unfold main, bind in Hmain.
  destruct (match input_device args with
            | Some index =>
                if negb (validate_device index at_start)
                then select_device rounds
                else ret (index, rounds)
            | None => select_device rounds
            end s) as [s1 r1].
  destruct r1 as [[d rest] | e |]; try discriminate.
  cbn [fst snd] in Hmain.
  destruct (driver_loop_exit_shape args runs d rest s1 s' Hmain)
    as (fails & later & env & d' & s0 & Hruns & Hfails & Hcall).
  exists fails, later, env. split; [exact Hruns |]. split; [exact Hfails |].
  split; [exists d', s0; exact Hcall |].
  exact (visualize_audio_true_closed _ _ _ _ _ _ _ _ _ Hcall).
Qed.

Lemma script_ends_after_refusals_and_one_success_witness :
  exists (s' : process) (fails later : list run_env) (env : run_env),
    main Samples.cli Samples.two_devices
      [Samples.refused; Samples.three_frames; Samples.lost_device]
      Samples.three_answers startup = (s', Return tt) /\
    [Samples.refused; Samples.three_frames; Samples.lost_device]
    = fails ++ env :: later /\
    Forall refusing fails /\
    (exists (d : Z) (s0 : process),
       visualize_audio d 4 8 1 8000 "output.wav" env s0
       = (s', Return true)) /\
    (exists (width : Z) (fs : list frame) (c : cycle_env) (f : frame),
       starts_recording 4 1 8000 env width /\
       closed_after 4 env fs c f /\
       wav_holds 1 width 8000 (total_bytes (fs ++ [f])) /\
       closes_cleanly env).
Proof.
  eassert (Hmain : main Samples.cli Samples.two_devices
                     [Samples.refused; Samples.three_frames;
                      Samples.lost_device]
                     Samples.three_answers startup = (_, Return tt))
    by (vm_compute; reflexivity).
  destruct (script_ends_after_refusals_and_one_success _ _ _ _ _ _ Hmain)
    as (fails & later & env & Hruns & Hfails & Hcall & Hshape).
  eexists. exists fails, later, env.
  split; [exact Hmain |]. split; [exact Hruns |]. split; [exact Hfails |].
  split; [exact Hcall | exact Hshape].
Defined.
